(** * Receipt item extraction and Pfand refund: logic.py and test.py

    A shallow embedding of the text-processing core of the receipt
    scanner: the line classifier [is_item_line], the normalizer
    [clean_extracted_items] (both variants, logic.py and test.py), the
    line loop of [process_receipt] and the deposit calculator
    [calculate_pfand], with the fragment of Python's [str], [re], [set],
    [sorted], [float] and [round] they rely on. *)

From Stdlib Require Import ZArith NArith QArith Qround Lia Bool Ascii String.
From Stdlib Require Import Floats.SpecFloat.
From stdpp Require Import gmap sorting list.

Local Open Scope N_scope.

(** ** Python strings

    A Python [str] is a sequence of Unicode code points; [len] counts code
    points, not bytes. *)

Definition char := N.
Definition str := list char.

(** String literals of the source are written as UTF-8 text and decoded to
    code points ([py "€"] is the one-element string U+20AC). *)
Fixpoint utf8_decode (bs : list N) : str :=
  match bs with
  | [] => []
  | b0 :: r0 =>
    if b0 <? 128 then b0 :: utf8_decode r0
    else if b0 <? 224 then
      match r0 with
      | b1 :: r1 => ((b0 mod 32) * 64 + b1 mod 64) :: utf8_decode r1
      | _ => []
      end
    else if b0 <? 240 then
      match r0 with
      | b1 :: b2 :: r2 =>
        ((b0 mod 16) * 4096 + (b1 mod 64) * 64 + b2 mod 64) :: utf8_decode r2
      | _ => []
      end
    else
      match r0 with
      | b1 :: b2 :: b3 :: r3 =>
        ((b0 mod 8) * 262144 + (b1 mod 64) * 4096 + (b2 mod 64) * 64 + b3 mod 64)
          :: utf8_decode r3
      | _ => []
      end
  end.

Definition py (s : string) : str :=
  utf8_decode (map N_of_ascii (list_ascii_of_string s)).

Definition len {A} (l : list A) : Z := Z.of_nat (length l).

(** The Unicode character database is CPython's, not the program's: the
    classifications and the (simple, one-to-one) case mappings the program
    reaches through [str.lower], [str.strip], [str.capitalize],
    [str.isalpha] and the [re] classes are taken as a parameter. *)
Class Unicode := {
  isdecimal : char → bool;   (* \d *)
  isalnum : char → bool;     (* \w is isalnum or the underscore *)
  isalpha : char → bool;     (* str.isalpha on one character *)
  isspace : char → bool;     (* \s, and what str.strip removes *)
  tolower : char → char;     (* str.lower on one character *)
  totitle : char → char      (* the first character under str.capitalize *)
}.

Definition in_range (lo hi c : char) : bool := (lo <=? c) && (c <=? hi).

(** CPython's database restricted to ASCII; every code point from 128 on is
    classed as a caseless symbol, which is what U+20AC (the euro sign) is. *)
#[export] Instance ascii_db : Unicode := {|
  isdecimal c := in_range 48 57 c;
  isalnum c := in_range 48 57 c || in_range 65 90 c || in_range 97 122 c;
  isalpha c := in_range 65 90 c || in_range 97 122 c;
  isspace c := in_range 9 13 c || in_range 28 32 c;
  tolower c := if in_range 65 90 c then c + 32 else c;
  totitle c := if in_range 97 122 c then c - 32 else c
|}.

(** Two letters beyond ASCII, with the entries CPython's database has for
    them: the Kelvin sign U+212A is an upper-case letter whose lower case
    is "k"; the long s U+017F is a lower-case letter whose upper and title
    case is "S". *)
Definition kelvin : char := 8490.
Definition long_s : char := 383.

Definition latin_db : Unicode := {|
  isdecimal c := in_range 48 57 c;
  isalnum c :=
    in_range 48 57 c || in_range 65 90 c || in_range 97 122 c
    || (c =? kelvin) || (c =? long_s);
  isalpha c :=
    in_range 65 90 c || in_range 97 122 c || (c =? kelvin) || (c =? long_s);
  isspace c := in_range 9 13 c || in_range 28 32 c;
  tolower c :=
    if in_range 65 90 c then c + 32 else if c =? kelvin then 107 else c;
  totitle c :=
    if in_range 97 122 c then c - 32 else if c =? long_s then 83 else c
|}.

Section PyStr.
Context {U : Unicode}.

(** str.lower() *)
Definition lower (s : str) : str := tolower <$> s.

(** str.strip(): leading and trailing whitespace removed. *)
Fixpoint lstrip (s : str) : str :=
  match s with
  | c :: s' => if isspace c then lstrip s' else s
  | [] => []
  end.

Definition rstrip (s : str) : str := reverse (lstrip (reverse s)).

Definition strip (s : str) : str := rstrip (lstrip s).

(** str.capitalize(): first character title-cased, the rest lower-cased. *)
Definition capitalize (s : str) : str :=
  match s with
  | [] => []
  | c :: s' => totitle c :: lower s'
  end.

(** any(c.isalpha() for c in text) and the like. *)
Definition any {A} (p : A → bool) (l : list A) : bool := existsb p l.
End PyStr.

(** [sub in s] on strings: [sub] occurs in [s] as a contiguous substring. *)
Fixpoint startswith (sub s : str) : bool :=
  match sub, s with
  | [], _ => true
  | a :: sub', b :: s' => (a =? b) && startswith sub' s'
  | _ :: _, [] => false
  end.

Fixpoint contains (sub s : str) : bool :=
  startswith sub s ||
  match s with
  | [] => false
  | _ :: s' => contains sub s'
  end.

(** Comparison of strings: lexicographic on code points, a proper prefix
    being smaller. *)
Fixpoint str_leb (s t : str) : bool :=
  match s, t with
  | [], _ => true
  | _ :: _, [] => false
  | a :: s', b :: t' => (a <? b) || ((a =? b) && str_leb s' t')
  end.

Definition str_le (s t : str) : Prop := str_leb s t = true.

#[export] Instance str_le_dec : RelDecision str_le.
Proof. intros s t. unfold str_le. apply _. Defined.

(** sorted(xs), on strings. *)
Definition sorted (l : list str) : list str := merge_sort str_le l.

(** set(xs) holds each value once; iterating over it yields its elements in
    some order. *)
Definition set_of (l : list str) : gset str := list_to_set l.

(** ** Regular expressions

    The fragment of [re] the program uses: character classes,
    concatenation, alternation and repetition, matched with derivatives.
    [re_search r s] is [re.search(r, s) is not None]. *)

Inductive regex : Type :=
  | Void
  | Eps
  | Class (p : char → bool)
  | Cat (r1 r2 : regex)
  | Alt (r1 r2 : regex)
  | Star (r : regex).

Definition Plus (r : regex) : regex := Cat r (Star r).     (* r+ *)
Definition Opt (r : regex) : regex := Alt r Eps.           (* r? *)
Definition one_of (cs : str) (c : char) : bool := existsb (N.eqb c) cs.

Fixpoint nullable (r : regex) : bool :=
  match r with
  | Void => false
  | Eps => true
  | Class _ => false
  | Cat r1 r2 => nullable r1 && nullable r2
  | Alt r1 r2 => nullable r1 || nullable r2
  | Star _ => true
  end.

Fixpoint deriv (c : char) (r : regex) : regex :=
  match r with
  | Void => Void
  | Eps => Void
  | Class p => if p c then Eps else Void
  | Cat r1 r2 =>
    if nullable r1 then Alt (Cat (deriv c r1) r2) (deriv c r2)
    else Cat (deriv c r1) r2
  | Alt r1 r2 => Alt (deriv c r1) (deriv c r2)
  | Star r1 => Cat (deriv c r1) (Star r1)
  end.

(** Some prefix of [s] matches [r]: a match starting at position 0. *)
Fixpoint re_match (r : regex) (s : str) : bool :=
  nullable r ||
  match s with
  | [] => false
  | c :: s' => re_match (deriv c r) s'
  end.

(** A match starting at some position of [s]. *)
Fixpoint re_search (r : regex) (s : str) : bool :=
  re_match r s ||
  match s with
  | [] => false
  | _ :: s' => re_search r s'
  end.

(** re.findall for a pattern that is one character class: the matches are
    the characters of the class, from left to right. *)
Definition re_findall_class (p : char → bool) (s : str) : list str :=
  (λ c, [c]) <$> filter (λ c, p c = true) s.

(** The language of a pattern. *)
Inductive matches : regex → str → Prop :=
  | m_eps : matches Eps []
  | m_class p c : p c = true → matches (Class p) [c]
  | m_cat r1 r2 s1 s2 :
      matches r1 s1 → matches r2 s2 → matches (Cat r1 r2) (s1 ++ s2)
  | m_alt_l r1 r2 s : matches r1 s → matches (Alt r1 r2) s
  | m_alt_r r1 r2 s : matches r2 s → matches (Alt r1 r2) s
  | m_star_nil r : matches (Star r) []
  | m_star_more r s1 s2 :
      matches r s1 → matches (Star r) s2 → matches (Star r) (s1 ++ s2).

(** ** Floats

    Python's [float] is IEEE 754 binary64. *)
Module Float.
Definition prec : Z := 53.
Definition emax : Z := 1024.
Definition float := spec_float.

(** float(n) for an int, rounded to nearest even. *)
Definition of_int (n : Z) : float := binary_normalize prec emax n 0 false.
Definition mul : float → float → float := SFmul prec emax.
Definition div : float → float → float := SFdiv prec emax.

(** The literal 0.6 denotes the double nearest to 6/10, which is
    5404319552844595 * 2^-53. *)
Definition lit_0_6 : float := S754_finite false 5404319552844595 (-53).

(** The literal 0.25 is the double 2^52 * 2^-54. *)
Definition lit_0_25 : float := S754_finite false 4503599627370496 (-54).

(** [n > x] for an int [n] and a float [x]; Python compares the two
    exactly, and so does the comparison with [float(n)] as long as [n] is
    below 2^53. *)
Definition int_gt (n : Z) (x : float) : bool := SFltb x (of_int n).

(** The rational a float stands for; none for infinities and NaN. *)
Definition to_Q (x : float) : option Q :=
  match x with
  | S754_zero _ => Some 0%Q
  | S754_finite s m e =>
    let v :=
      match e with
      | Zneg k => (Zpos m # 2 ^ k)%Q
      | _ => inject_Z (Zpos m * 2 ^ e)
      end in
    Some (if s then Qopp v else v)
  | _ => None
  end.
End Float.

(** round(x, ndigits), to the nearest multiple of 10^-ndigits, ties to the
    even one. The amounts of the program are multiples of 1/4, which
    binary64 represents and multiplies exactly (see [quarters_exact]); they
    are kept as rationals in lowest terms. *)
Definition round_half_even (q : Q) : Z :=
  let f := Qfloor q in
  match Qcompare (q - inject_Z f) (1 # 2) with
  | Lt => f
  | Gt => (f + 1)%Z
  | Eq => if Z.even f then f else (f + 1)%Z
  end.

Definition round (x : Q) (ndigits : nat) : Q :=
  Qred (inject_Z (round_half_even (x * inject_Z (10 ^ Z.of_nat ndigits)))
        / inject_Z (10 ^ Z.of_nat ndigits)).

(** sum(1 for x in xs if p(x)) *)
Definition sum_ones {A} (p : A → bool) (xs : list A) : Z :=
  foldr Z.add 0%Z ((λ _, 1%Z) <$> filter (λ x, p x = true) xs).

(** ** The OCR result

    What both files read from [result.export()['pages'][0]['blocks']]: a
    list of blocks, each with its lines, each line with its words, each
    word with its value. *)
Module ocr.
Record word := { value : str }.
Record line := { words : list word }.
Record block := { lines : list line }.
End ocr.

(** sep.join(xs) *)
Fixpoint join (sep : str) (xs : list str) : str :=
  match xs with
  | [] => []
  | [x] => x
  | x :: xs' => x ++ sep ++ join sep xs'
  end.

(** ' '.join(word['value'] for word in line['words']) *)
Definition line_text (line : ocr.line) : str :=
  join (py " ") (ocr.value <$> ocr.words line).

(** An export written down as its blocks of lines of words. *)
Definition export_of (blocks : list (list (list str))) : list ocr.block :=
  (λ b, ocr.Build_block
          ((λ l, ocr.Build_line (ocr.Build_word <$> l)) <$> b)) <$> blocks.

(** The texts of all lines of an export, block after block. *)
Definition line_texts (blocks : list ocr.block) : list str :=
  line_text <$> (blocks ≫= ocr.lines).

(** ** logic.py *)
Module logic_py.
Section Program.
Context {U : Unicode}.

Definition clutter_keywords : list str :=
  [ py "store"; py "total"; py "due"; py "debit"; py "credit"; py "cash";
    py "payment"; py "change"; py "balance"; py "date"; py "time";
    py "vat"; py "tax"; py "thank you"; py "subtotal"; py "discount";
    py "offer"; py "feedback"; py "survey"; py "prices"; py "network";
    py "terminal"; py "ref"; py "aid"; py "appr code"; py "st#";
    py "op#"; py "te#"; py "tr#"; py "tc#" ].

(** \d *)
Definition digit : char → bool := isdecimal.
(** \w *)
Definition word (c : char) : bool := isalnum c || one_of (py "_") c.
(** [^\w\s.,] *)
Definition symbol (c : char) : bool :=
  negb (word c || isspace c || one_of (py ".,") c).
(** [€$] *)
Definition currency : char → bool := one_of (py "€$").

(** \d+(\.\d{2})?\s*[€$] *)
Definition price_pattern : regex :=
  Cat (Plus (Class digit))
    (Cat (Opt (Cat (Class (one_of (py "."))) (Cat (Class digit) (Class digit))))
      (Cat (Star (Class isspace)) (Class currency))).

Definition is_item_line (text : str) : bool :=
  if any (λ keyword, contains keyword (lower text)) clutter_keywords
  then false
  (* Ignore lines with excessive numbers or symbols *)
  else if Float.int_gt (len (re_findall_class digit text))
            (Float.mul (Float.of_int (len text)) Float.lit_0_6)
          || re_search (Class symbol) text
  then false
  (* Ignore lines that are too short or too long *)
  else if (len text <? 5)%Z || (len text >? 50)%Z
  then false
  (* Accept lines with price patterns only if they include item-like text *)
  else if re_search price_pattern text
  then (if any isalpha text then true else false)
  (* Passed all filters, consider it an item line *)
  else true.

Definition clean_extracted_items (items : list str) : list str :=
  sorted (elements (set_of
    ((λ item, capitalize (strip item))
       <$> filter (λ item, strip item ≠ []) items))).

(** The line loop of process_receipt, on the text lines the OCR result
    holds (each the words of a line joined by single spaces). *)
Definition process_receipt (lines : list str) : list str :=
  let raw_items := strip <$> filter (λ text, is_item_line text = true) lines in
  clean_extracted_items raw_items.

Definition bottle_keywords : list str :=
  [ py "coca cola"; py "pepsi"; py "dasani"; py "bottle"; py "sprite";
    py "fanta"; py "evian"; py "volvic"; py "nestle"; py "mineral water";
    py "glass bottle"; py "plastic bottle" ].

Definition is_bottle (item : str) : bool :=
  any (λ keyword, contains keyword (lower item)) bottle_keywords.

Definition calculate_pfand (items : list str) : Q :=
  let bottle_count := sum_ones is_bottle items in
  let pfand_per_bottle := 0.25%Q in
  round (inject_Z bottle_count * pfand_per_bottle) 2.

(** The two loops of process_receipt over the exported blocks, and the
    call that follows them. *)
Definition process_receipt_blocks (blocks : list ocr.block) : list str :=
  let raw_items :=
    block ← blocks;
    line ← ocr.lines block;
    let text := line_text line in
    if is_item_line text then [strip text] else [] in
  clean_extracted_items raw_items.
End Program.
End logic_py.

(** ** test.py *)
Module test_py.
Section Program.
Context {U : Unicode}.

Definition clutter_keywords : list str :=
  [ py "store"; py "total"; py "due"; py "debit"; py "credit"; py "cash";
    py "payment"; py "change"; py "balance"; py "date"; py "time";
    py "vat"; py "tax"; py "thank you" ].

(** The characters of the class in line 33; the last one is the double
    quote, code point 34. *)
Definition special : char → bool :=
  one_of (py "!@#$%^&*()_+=|<>?{}~:;" ++ [34]).

Definition is_item_line (text : str) : bool :=
  if any (λ keyword, contains keyword (lower text)) clutter_keywords
  then false
  else if (len (re_findall_class isdecimal text) >? 2)%Z
  then false
  else if (len text <? 3)%Z || (len text >? 50)%Z
  then false
  else if re_search (Class special) text
  then false
  else true.

(** One turn of the loop: [item] is normalised, and appended unless it
    was seen. *)
Definition clean_step (st : list str * gset str) (item : str)
  : list str * gset str :=
  let '(cleaned_items, seen_items) := st in
  let item := lower (strip item) in
  if decide (item ∉ seen_items)
  then (cleaned_items ++ [capitalize item], seen_items ∪ {[item]})
  else (cleaned_items, seen_items).

Definition clean_extracted_items (items : list str) : list str :=
  fst (fold_left clean_step items ([], ∅)).

(** One turn of the inner loop of process_receipt, for the line at
    position [idx] of a block of [n] lines: what it appends to raw_items. *)
Definition loop_body (n idx : Z) (line : ocr.line) : list str :=
  let text := line_text line in
  (* Skip contextual clutter at the beginning or end of the receipt *)
  if (idx <? 3)%Z || (idx >? n - 3)%Z then []
  else if is_item_line text then [strip text]
  else [].

(** for idx, line in enumerate(block['lines']) *)
Definition block_items (block : ocr.block) : list str :=
  mjoin (imap (λ idx line, loop_body (len (ocr.lines block)) (Z.of_nat idx) line)
           (ocr.lines block)).

Definition process_receipt (blocks : list ocr.block) : list str :=
  let raw_items := block ← blocks; block_items block in
  clean_extracted_items raw_items.
End Program.
End test_py.

(** ** Vocabulary of the specification *)

Definition euro : char := 8364.     (* U+20AC *)
Definition dollar : char := 36.
Definition underscore : char := 95.

Section Vocabulary.
Context {U : Unicode}.

(** The canonical key of an item: lower-cased and trimmed. *)
Definition canonical_key (s : str) : str := lower (strip s).

(** First character upper-cased, the remainder unchanged. *)
Definition recapitalize (s : str) : str :=
  match s with
  | [] => []
  | c :: s' => totitle c :: s'
  end.

(** A string with no white space at its head, and at neither end. *)
Definition no_lead (s : str) : Prop :=
  match s with
  | c :: _ => isspace c = false
  | [] => True
  end.

Definition trimmed (s : str) : Prop := no_lead s ∧ no_lead (reverse s).

(** The number of decimal digits of a line. *)
Definition digit_count (text : str) : Z :=
  len (filter (λ c, isdecimal c = true) text).

(** The values of a list in the order of their first occurrence. *)
Definition seen_step (acc : list str) (k : str) : list str :=
  if decide (k ∈ acc) then acc else acc ++ [k].

Definition first_seen (l : list str) : list str := fold_left seen_step l [].

(** What every Unicode database says of the two currency signs: neither
    is alphanumeric, neither is white space. *)
Class CurrencySigns : Prop := {
  euro_not_alnum : isalnum euro = false;
  euro_not_space : isspace euro = false;
  dollar_not_alnum : isalnum dollar = false;
  dollar_not_space : isspace dollar = false
}.

(** A character whose case mappings forget nothing but the case: each is
    idempotent, each absorbs the other, and neither turns the character
    into or out of white space. Every ASCII character is regular; the few
    characters with several forms of one case (the Kelvin sign, the long s,
    the dotless i) are not. *)
Record regular (c : char) : Prop := {
  reg_lower_lower : tolower (tolower c) = tolower c;
  reg_title_title : totitle (totitle c) = totitle c;
  reg_lower_title : tolower (totitle c) = tolower c;
  reg_title_lower : totitle (tolower c) = totitle c;
  reg_space_lower : isspace (tolower c) = isspace c;
  reg_space_title : isspace (totitle c) = isspace c
}.

(** A list of items all of whose characters are regular. *)
Definition regular_items (items : list str) : Prop :=
  Forall (Forall regular) items.
End Vocabulary.

Arguments CurrencySigns U : clear implicits.

(** ** Reading the definitions on concrete inputs *)

Example utf8_euro : py "a€$" = [97; 8364; 36].
Proof. reflexivity. Qed.

Example lit_0_6_nearest :
  Float.div (Float.of_int 6) (Float.of_int 10) = Float.lit_0_6.
Proof. vm_compute. reflexivity. Qed.

Example lit_0_25_exact :
  Float.div (Float.of_int 1) (Float.of_int 4) = Float.lit_0_25.
Proof. vm_compute. reflexivity. Qed.

(** In binary64 the product of a count and 0.25 is the quarter of the
    count, with no rounding (checked here for counts up to 2000). *)
Example quarters_exact :
  forallb (λ n,
      match Float.to_Q (Float.mul (Float.of_int (Z.of_nat n)) Float.lit_0_25) with
      | Some q => Qeq_bool q (inject_Z (Z.of_nat n) * 0.25)
      | None => false
      end)
    (seq 0 2001) = true.
Proof. vm_compute. reflexivity. Qed.

Example bread_is_item : logic_py.is_item_line (py "Bread") = true.
Proof. vm_compute. reflexivity. Qed.

Example clean_milk :
  logic_py.clean_extracted_items [py "milk"; py "Milk"; py " MILK "] = [py "Milk"].
Proof. vm_compute. reflexivity. Qed.

Example clean_milk_test :
  test_py.clean_extracted_items [py "milk"; py "Milk"; py " MILK "] = [py "Milk"].
Proof. vm_compute. reflexivity. Qed.

(** The two variants of the classifier differ: test.py accepts lines of
    three or four characters and knows fewer clutter keywords. *)
Example variants_differ :
  logic_py.is_item_line (py "Milk") = false ∧
  test_py.is_item_line (py "Milk") = true ∧
  logic_py.is_item_line (py "Special offer") = false ∧
  test_py.is_item_line (py "Special offer") = true.
Proof. vm_compute. auto. Qed.

Example pfand_two :
  logic_py.calculate_pfand [py "Coca cola 500ml"; py "Bread"; py "Pepsi bottle"] = (1 # 2)%Q.
Proof. vm_compute. reflexivity. Qed.

(** ** Substrings *)

Lemma startswith_spec sub s :
  startswith sub s = true ↔ ∃ post, s = sub ++ post.
Proof.
  revert s. induction sub as [|a sub IH]; intros s; simpl.
  - split; eauto.
  - destruct s as [|b s].
    + split; [discriminate | intros [post H]; discriminate].
    + rewrite andb_true_iff, N.eqb_eq, IH. split.
      * intros [-> [post ->]]. eauto.
      * intros [post H]. injection H as -> ->. eauto.
Qed.

Lemma contains_spec sub s :
  contains sub s = true ↔ ∃ pre post, s = pre ++ sub ++ post.
Proof.
  induction s as [|b s IH]; simpl; rewrite orb_true_iff, startswith_spec.
  - split.
    + intros [[post H] | H]; [|discriminate]. exists [], post. exact H.
    + intros [pre [post H]]. left. exists post.
      destruct pre; [exact H | discriminate].
  - rewrite IH. split.
    + intros [[post H] | [pre [post H]]].
      * exists [], post. exact H.
      * exists (b :: pre), post. simpl. by rewrite H.
    + intros [pre [post H]]. destruct pre as [|b' pre]; simpl in H.
      * left. eauto.
      * right. injection H as -> ->. eauto.
Qed.

Lemma any_spec {A} (p : A → bool) (l : list A) :
  existsb p l = true ↔ ∃ x, x ∈ l ∧ p x = true.
Proof.
  rewrite existsb_exists. split; intros [x [Hx Hp]]; exists x; split; auto;
    by apply list_elem_of_In.
Qed.

(** A substring of a lower-cased string is the lower-cased form of a
    substring. *)
Lemma lower_substring `{Unicode} (sub s : str) :
  (∃ pre post, lower s = pre ++ sub ++ post) ↔
  (∃ pre w post, s = pre ++ w ++ post ∧ lower w = sub).
Proof.
  unfold lower. split.
  - intros (pre & post & E).
    apply fmap_app_inv in E as (s1 & s2' & -> & E2 & ->). symmetry in E2.
    apply fmap_app_inv in E2 as (s2 & s3 & -> & -> & ->).
    by exists s1, s2, s3.
  - intros (pre & w & post & -> & <-).
    exists (tolower <$> pre), (tolower <$> post). by rewrite !fmap_app.
Qed.

(** ** Correctness of the matcher *)

Lemma matches_cat_inv r1 r2 s :
  matches (Cat r1 r2) s →
  ∃ s1 s2, s = s1 ++ s2 ∧ matches r1 s1 ∧ matches r2 s2.
Proof. intros M. inversion M; subst. eauto. Qed.

Lemma matches_alt_inv r1 r2 s :
  matches (Alt r1 r2) s → matches r1 s ∨ matches r2 s.
Proof. intros M. inversion M; subst; auto. Qed.

Lemma matches_class_inv p s :
  matches (Class p) s → ∃ c, s = [c] ∧ p c = true.
Proof. intros M. inversion M; subst. eauto. Qed.

Lemma matches_nil_cat r1 r2 :
  matches (Cat r1 r2) [] ↔ matches r1 [] ∧ matches r2 [].
Proof.
  split.
  - intros M. apply matches_cat_inv in M as (s1 & s2 & E & M1 & M2).
    symmetry in E. apply app_eq_nil in E as [-> ->]. auto.
  - intros [M1 M2]. apply (m_cat _ _ [] []); auto.
Qed.

Lemma nullable_spec r : nullable r = true ↔ matches r [].
Proof.
  induction r as [| |p|r1 IH1 r2 IH2|r1 IH1 r2 IH2|r IH]; simpl.
  - split; [discriminate | intros M; inversion M].
  - split; [constructor | reflexivity].
  - split; [discriminate | intros M; inversion M].
  - rewrite andb_true_iff, IH1, IH2, matches_nil_cat. reflexivity.
  - rewrite orb_true_iff, IH1, IH2. split.
    + intros [M | M]; [by apply m_alt_l | by apply m_alt_r].
    + apply matches_alt_inv.
  - split; [constructor | reflexivity].
Qed.

(** A match of [Star r] that starts with [c] starts with a non-empty match
    of [r]. *)
Lemma matches_star_cons r c s :
  matches (Star r) (c :: s) →
  ∃ s1 s2, s = s1 ++ s2 ∧ matches r (c :: s1) ∧ matches (Star r) s2.
Proof.
  intros M. remember (Star r) as r' eqn:Er. remember (c :: s) as cs eqn:Es.
  induction M as [| | | | | |r0 s1 s2 M1 _ M2 IH2]; try discriminate.
  injection Er as ->. destruct s1 as [|c1 s1]; simpl in Es.
  - apply IH2; auto.
  - injection Es as -> <-. eauto.
Qed.

Lemma deriv_spec r c s : matches (deriv c r) s ↔ matches r (c :: s).
Proof.
  revert s.
  induction r as [| |p|r1 IH1 r2 IH2|r1 IH1 r2 IH2|r IH]; intros s; simpl.
  - split; intros M; inversion M.
  - split; intros M; inversion M.
  - destruct (p c) eqn:Hp.
    + split; intros M; inversion M; subst; by constructor.
    + split; intros M; inversion M; subst; congruence.
  - assert (matches (Cat (deriv c r1) r2) s → matches (Cat r1 r2) (c :: s)) as Hl.
    { intros M. apply matches_cat_inv in M as (s1 & s2 & -> & M1 & M2).
      apply IH1 in M1. by apply (m_cat _ _ (c :: s1) s2). }
    assert (matches (Cat r1 r2) (c :: s) →
            matches (Cat (deriv c r1) r2) s ∨
            (matches r1 [] ∧ matches (deriv c r2) s)) as Hr.
    { intros M. apply matches_cat_inv in M as (s1 & s2 & E & M1 & M2).
      destruct s1 as [|c1 s1]; simpl in E.
      - right. subst s2. split; [done | by apply IH2].
      - injection E as -> ->. left. apply m_cat; [by apply IH1 | done]. }
    destruct (nullable r1) eqn:Hn.
    + split.
      * intros M. apply matches_alt_inv in M as [M | M]; [by apply Hl |].
        apply (m_cat _ _ [] (c :: s)); [by apply nullable_spec | by apply IH2].
      * intros M. destruct (Hr M) as [M' | [_ M']];
          [by apply m_alt_l | by apply m_alt_r].
    + split; [exact Hl |].
      intros M. destruct (Hr M) as [M' | [M' _]]; [done |].
      apply nullable_spec in M'. congruence.
  - split.
    + intros M. apply matches_alt_inv in M as [M | M];
        [apply m_alt_l; by apply IH1 | apply m_alt_r; by apply IH2].
    + intros M. apply matches_alt_inv in M as [M | M];
        [apply m_alt_l; by apply IH1 | apply m_alt_r; by apply IH2].
  - split.
    + intros M. apply matches_cat_inv in M as (s1 & s2 & -> & M1 & M2).
      apply IH in M1. by apply (m_star_more _ (c :: s1) s2).
    + intros M. apply matches_star_cons in M as (s1 & s2 & -> & M1 & M2).
      apply m_cat; [by apply IH | done].
Qed.

Lemma re_match_spec r s :
  re_match r s = true ↔ ∃ w post, s = w ++ post ∧ matches r w.
Proof.
  revert r. induction s as [|c s IH]; intros r; simpl;
    rewrite orb_true_iff, nullable_spec.
  - split.
    + intros [M | M]; [|discriminate]. exists [], []. auto.
    + intros (w & post & E & M). left. symmetry in E.
      apply app_eq_nil in E as [-> _]. done.
  - rewrite IH. split.
    + intros [M | (w & post & -> & M)].
      * exists [], (c :: s). auto.
      * exists (c :: w), post. split; [done | by apply deriv_spec].
    + intros (w & post & E & M). destruct w as [|c' w]; simpl in E.
      * by left.
      * injection E as -> ->. right. exists w, post.
        split; [done | by apply deriv_spec].
Qed.

Lemma re_search_spec r s :
  re_search r s = true ↔ ∃ pre w post, s = pre ++ w ++ post ∧ matches r w.
Proof.
  induction s as [|c s IH]; cbn [re_search];
    rewrite orb_true_iff, re_match_spec.
  - split.
    + intros [(w & post & E & M) | M]; [|discriminate]. by exists [], w, post.
    + intros (pre & w & post & E & M). left. destruct pre; [|discriminate].
      by exists w, post.
  - rewrite IH. split.
    + intros [(w & post & E & M) | (pre & w & post & -> & M)].
      * by exists [], w, post.
      * by exists (c :: pre), w, post.
    + intros (pre & w & post & E & M). destruct pre as [|c' pre]; simpl in E.
      * left. by exists w, post.
      * injection E as -> ->. right. by exists pre, w, post.
Qed.

(** Searching for one character class finds a character of the class. *)
Lemma re_search_class p s :
  re_search (Class p) s = true ↔ ∃ c, c ∈ s ∧ p c = true.
Proof.
  rewrite re_search_spec. split.
  - intros (pre & w & post & -> & M).
    apply matches_class_inv in M as (c & -> & Hp).
    exists c. split; [|done]. rewrite !elem_of_app. right. left. by left.
  - intros (c & Hc & Hp). apply list_elem_of_split in Hc as (pre & post & ->).
    exists pre, [c], post. split; [done | by constructor].
Qed.

(** ** The binary64 threshold of the digit test

    For the lengths the classifier lets through, comparing the digit count
    with the double [len(text) * 0.6] is comparing it with three fifths of
    the length. *)
Lemma density_table :
  forallb (λ n, forallb (λ d,
      Bool.eqb
        (Float.int_gt (Z.of_nat d)
           (Float.mul (Float.of_int (Z.of_nat n)) Float.lit_0_6))
        (3 * Z.of_nat n <? 5 * Z.of_nat d)%Z)
    (seq 0 (S n))) (seq 0 51) = true.
Proof. vm_compute. reflexivity. Qed.

Lemma density_exact (n d : Z) :
  (0 ≤ d ≤ n)%Z → (n ≤ 50)%Z →
  Float.int_gt d (Float.mul (Float.of_int n) Float.lit_0_6)
  = (3 * n <? 5 * d)%Z.
Proof.
  intros Hd Hn. pose proof density_table as T.
  rewrite forallb_forall in T.
  specialize (T (Z.to_nat n)). rewrite forallb_forall in T.
  specialize (T ltac:(apply in_seq; lia) (Z.to_nat d) ltac:(apply in_seq; lia)).
  apply Bool.eqb_prop in T. rewrite !Z2Nat.id in T by lia. exact T.
Qed.

(** ** The line classifier of logic.py *)
Section Classifier.
Context {U : Unicode}.
Import logic_py.

Lemma digit_count_le (text : str) : (0 ≤ digit_count text ≤ len text)%Z.
Proof.
  unfold digit_count, len. split; [lia |].
  apply Nat2Z.inj_le, length_filter.
Qed.

Lemma len_findall_class (p : char → bool) (text : str) :
  len (re_findall_class p text) = len (filter (λ c, p c = true) text).
Proof. unfold re_findall_class, len. by rewrite length_fmap. Qed.

Lemma is_item_line_keyword (text keyword : str) :
  keyword ∈ clutter_keywords → contains keyword (lower text) = true →
  is_item_line text = false.
Proof.
  intros Hk Hc. unfold is_item_line.
  replace (any _ clutter_keywords) with true; [done |].
  symmetry. apply any_spec. eauto.
Qed.

Lemma is_item_line_symbol (text : str) (c : char) :
  c ∈ text → symbol c = true → is_item_line text = false.
Proof.
  intros Hc Hs. unfold is_item_line.
  replace (re_search (Class symbol) text) with true
    by (symmetry; apply re_search_class; eauto).
  rewrite orb_true_r. by destruct (any _ _).
Qed.

Lemma is_item_line_length (text : str) :
  (len text < 5 ∨ len text > 50)%Z → is_item_line text = false.
Proof.
  intros Hl. unfold is_item_line.
  replace ((len text <? 5)%Z || (len text >? 50)%Z) with true.
  - by repeat match goal with |- context [if ?b then _ else _] => destruct b end.
  - symmetry. apply orb_true_iff. rewrite Z.ltb_lt, Z.gtb_gt. lia.
Qed.

Lemma is_item_line_density (text : str) :
  (5 * digit_count text > 3 * len text)%Z → is_item_line text = false.
Proof.
  intros Hd. destruct (Z_le_gt_dec (len text) 50) as [Hl | Hl];
    [|apply is_item_line_length; lia].
  unfold is_item_line. rewrite len_findall_class.
  change (len (filter _ text)) with (digit_count text).
  rewrite density_exact by (auto using digit_count_le).
  replace (3 * len text <? 5 * digit_count text)%Z with true
    by (symmetry; apply Z.ltb_lt; lia).
  by destruct (any _ _).
Qed.

Lemma currency_cases (c : char) :
  currency c = true ↔ c = euro ∨ c = dollar.
Proof.
  unfold currency, one_of. change (py "€$") with [euro; dollar]. simpl.
  rewrite !orb_true_iff, !N.eqb_eq. intuition congruence.
Qed.

Lemma currency_symbol `{!CurrencySigns U} (c : char) :
  currency c = true → symbol c = true.
Proof.
  intros [-> | ->]%currency_cases; unfold symbol, word.
  - by rewrite euro_not_alnum, euro_not_space.
  - by rewrite dollar_not_alnum, dollar_not_space.
Qed.

(** A match of the price pattern ends in a currency sign. *)
Lemma price_pattern_currency (text : str) :
  re_search price_pattern text = true → ∃ c, c ∈ text ∧ currency c = true.
Proof.
  intros (pre & w & post & -> & M)%re_search_spec. unfold price_pattern in M.
  apply matches_cat_inv in M as (s1 & s2 & -> & _ & M).
  apply matches_cat_inv in M as (s3 & s4 & -> & _ & M).
  apply matches_cat_inv in M as (s5 & s6 & -> & _ & M).
  apply matches_class_inv in M as (c & -> & Hc).
  exists c. split; [|done]. rewrite !elem_of_app, list_elem_of_singleton. tauto.
Qed.
End Classifier.

(** ** The order on strings *)

Lemma str_leb_refl s : str_leb s s = true.
Proof.
  induction s as [|a s IH]; simpl; [done |].
  by rewrite N.eqb_refl, IH, orb_true_r.
Qed.

Lemma str_leb_cons a b s t :
  str_leb (a :: s) (b :: t) = true ↔ a < b ∨ (a = b ∧ str_leb s t = true).
Proof. simpl. by rewrite orb_true_iff, andb_true_iff, N.ltb_lt, N.eqb_eq. Qed.

Lemma str_leb_trans s t u :
  str_leb s t = true → str_leb t u = true → str_leb s u = true.
Proof.
  revert t u. induction s as [|a s IH]; intros [|b t] [|c u]; try done.
  rewrite !str_leb_cons. intros [? | [-> ?]] [? | [-> ?]]; eauto with lia.
Qed.

Lemma str_leb_antisym s t :
  str_leb s t = true → str_leb t s = true → s = t.
Proof.
  revert t. induction s as [|a s IH]; intros [|b t]; try done.
  rewrite !str_leb_cons. intros [? | [-> ?]] [? | [? ?]]; try lia.
  f_equal. auto.
Qed.

Lemma str_leb_total s t : str_leb s t = true ∨ str_leb t s = true.
Proof.
  revert t. induction s as [|a s IH]; intros [|b t]; auto.
  rewrite !str_leb_cons. destruct (N.lt_trichotomy a b) as [? | [-> | ?]]; auto.
  destruct (IH t); auto.
Qed.

#[export] Instance str_le_refl : Reflexive str_le.
Proof. intros s. apply str_leb_refl. Qed.

#[export] Instance str_le_trans : Transitive str_le.
Proof. intros s t u. apply str_leb_trans. Qed.

#[export] Instance str_le_antisym : AntiSymm (=) str_le.
Proof. intros s t. apply str_leb_antisym. Qed.

#[export] Instance str_le_total : Total str_le.
Proof. intros s t. apply str_leb_total. Qed.

(** ** Trimming and case *)
Section Strings.
Context {U : Unicode}.

Lemma lstrip_no_lead s : no_lead (lstrip s).
Proof.
  induction s as [|c s IH]; simpl; [done |].
  by destruct (isspace c) eqn:Hc.
Qed.

Lemma lstrip_id s : no_lead s → lstrip s = s.
Proof. destruct s as [|c s]; simpl; [done |]. by intros ->. Qed.

Lemma lstrip_snoc l c :
  isspace c = false → ∃ t, lstrip (l ++ [c]) = t ++ [c].
Proof.
  intros Hc. induction l as [|a l IH]; simpl.
  - rewrite Hc. by exists [].
  - destruct (isspace a); [done |]. by exists (a :: l).
Qed.

Lemma no_lead_rstrip s : no_lead s → no_lead (rstrip s).
Proof.
  destruct s as [|c s]; [done |]. simpl. intros Hc. unfold rstrip.
  rewrite reverse_cons.
  destruct (lstrip_snoc (reverse s) c Hc) as [t ->].
  by rewrite reverse_snoc.
Qed.

Lemma strip_trimmed s : trimmed (strip s).
Proof.
  unfold strip. split.
  - apply no_lead_rstrip, lstrip_no_lead.
  - unfold rstrip. rewrite reverse_involutive. apply lstrip_no_lead.
Qed.

Lemma strip_id s : trimmed s → strip s = s.
Proof.
  intros [H1 H2]. unfold strip, rstrip.
  by rewrite (lstrip_id s), (lstrip_id (reverse s)), reverse_involutive.
Qed.

Lemma strip_strip s : strip (strip s) = strip s.
Proof. apply strip_id, strip_trimmed. Qed.

(** Being trimmed is a matter of where the white space is. *)
Lemma no_lead_same_space s t :
  isspace <$> s = isspace <$> t → no_lead s → no_lead t.
Proof. destruct s, t; simpl; try done. intros [= <- _]. done. Qed.

Lemma trimmed_same_space s t :
  isspace <$> s = isspace <$> t → trimmed s → trimmed t.
Proof.
  intros E [H1 H2]. split.
  - by apply (no_lead_same_space s).
  - apply (no_lead_same_space (reverse s)); [|done].
    by rewrite !fmap_reverse, E.
Qed.

Lemma Forall_lstrip (P : char → Prop) s : Forall P s → Forall P (lstrip s).
Proof.
  induction 1 as [|c s Hc Hs IH]; simpl; [done |].
  destruct (isspace c); [done | by constructor].
Qed.

Lemma Forall_strip (P : char → Prop) s : Forall P s → Forall P (strip s).
Proof.
  intros H. unfold strip, rstrip.
  by apply Forall_reverse, Forall_lstrip, Forall_reverse, Forall_lstrip.
Qed.

Lemma lower_lower s : Forall regular s → lower (lower s) = lower s.
Proof.
  intros Hs. unfold lower. rewrite <- list_fmap_compose.
  apply Forall_fmap_ext_1. eapply Forall_impl; [exact Hs |].
  intros c Hc. apply (reg_lower_lower c Hc).
Qed.

Lemma lower_capitalize s : Forall regular s → lower (capitalize s) = lower s.
Proof.
  intros Hs. destruct Hs as [|c s Hc Hs]; [done |].
  unfold capitalize. cbn [lower fmap list_fmap].
  f_equal; [apply (reg_lower_title c Hc) | by apply lower_lower].
Qed.

Lemma capitalize_lower s : Forall regular s → capitalize (lower s) = capitalize s.
Proof.
  intros Hs. destruct Hs as [|c s Hc Hs]; [done |].
  unfold capitalize. cbn [lower fmap list_fmap].
  f_equal; [apply (reg_title_lower c Hc) | by apply lower_lower].
Qed.

Lemma capitalize_capitalize s :
  Forall regular s → capitalize (capitalize s) = capitalize s.
Proof.
  intros Hs. destruct Hs as [|c s Hc Hs]; [done |]. simpl.
  f_equal; [apply (reg_title_title c Hc) | by apply lower_lower].
Qed.

Lemma space_lower s : Forall regular s → isspace <$> lower s = isspace <$> s.
Proof.
  intros Hs. unfold lower. rewrite <- list_fmap_compose.
  apply Forall_fmap_ext_1. eapply Forall_impl; [exact Hs |].
  intros c Hc. apply (reg_space_lower c Hc).
Qed.

Lemma space_capitalize s :
  Forall regular s → isspace <$> capitalize s = isspace <$> s.
Proof.
  intros Hs. destruct Hs as [|c s Hc Hs]; [done |].
  unfold capitalize. rewrite !fmap_cons.
  f_equal; [apply (reg_space_title c Hc) | by apply space_lower].
Qed.

Lemma trimmed_capitalize s :
  Forall regular s → trimmed s → trimmed (capitalize s).
Proof. intros Hs. apply trimmed_same_space. by rewrite space_capitalize. Qed.

(** The key of a capitalized trimmed string is its lower-cased form, and
    capitalizing the key gives the string back. *)
Lemma key_capitalize t :
  Forall regular t → trimmed t → canonical_key (capitalize t) = lower t.
Proof.
  intros Hr Ht. unfold canonical_key.
  rewrite strip_id by (by apply trimmed_capitalize).
  by apply lower_capitalize.
Qed.

Lemma capitalize_key_capitalize t :
  Forall regular t → trimmed t →
  capitalize (canonical_key (capitalize t)) = capitalize t.
Proof. intros Hr Ht. by rewrite key_capitalize, capitalize_lower by done. Qed.

Lemma key_capitalize_key x :
  Forall regular x →
  canonical_key (capitalize (canonical_key x)) = canonical_key x.
Proof.
  intros Hx. apply (Forall_strip _ x) in Hx.
  unfold canonical_key at 2. rewrite capitalize_lower by done.
  apply key_capitalize; [done | apply strip_trimmed].
Qed.
End Strings.

(** ** The characters of the ASCII database are regular *)

Lemma in_range_spec lo hi c : in_range lo hi c = true ↔ lo ≤ c ≤ hi.
Proof. unfold in_range. rewrite andb_true_iff, !N.leb_le. lia. Qed.

Ltac case_range :=
  repeat match goal with
  | |- context [in_range ?lo ?hi ?c] =>
    is_var c;
    let H := fresh "H" in
    destruct (in_range lo hi c) eqn:H;
    [apply in_range_spec in H
    |apply not_true_iff_false in H; rewrite in_range_spec in H]
  end;
  repeat match goal with
  | |- context [in_range ?lo ?hi ?c] =>
    let H := fresh "H" in
    destruct (in_range lo hi c) eqn:H;
    [apply in_range_spec in H
    |apply not_true_iff_false in H; rewrite in_range_spec in H]
  end.

Lemma ascii_regular (c : char) : regular (U := ascii_db) c.
Proof.
  split; cbn [tolower totitle isspace ascii_db];
    case_range; simpl; try reflexivity; lia.
Qed.

Lemma ascii_regular_items (items : list str) : regular_items (U := ascii_db) items.
Proof.
  apply Forall_forall. intros s _. apply Forall_forall. intros c _.
  apply ascii_regular.
Qed.

#[export] Instance ascii_currency_signs : CurrencySigns ascii_db.
Proof. by split. Qed.

(** ** The normalizers *)
Section Normalizer.
Context {U : Unicode}.

Lemma sorted_Permutation l : sorted l ≡ₚ l.
Proof. apply merge_sort_Permutation. Qed.

Lemma Sorted_sorted l : Sorted str_le (sorted l).
Proof. apply (Sorted_merge_sort str_le). Qed.

(** Sorting the elements of the set of a sorted, duplicate-free list gives
    the list back. *)
Lemma sorted_set_fixed l :
  Sorted str_le l → NoDup l → sorted (elements (set_of l)) = l.
Proof.
  intros Hs Hn. apply (Sorted_unique str_le); [apply Sorted_sorted | done |].
  rewrite sorted_Permutation. by apply elements_list_to_set.
Qed.

Lemma elem_of_clean items e :
  e ∈ logic_py.clean_extracted_items items ↔
  ∃ c, c ∈ items ∧ strip c ≠ [] ∧ e = capitalize (strip c).
Proof.
  unfold logic_py.clean_extracted_items, set_of.
  rewrite sorted_Permutation, elem_of_elements, elem_of_list_to_set,
    list_elem_of_fmap.
  split.
  - intros (c & -> & [Hc Hin]%list_elem_of_filter). eauto.
  - intros (c & Hin & Hc & ->). exists c. split; [done |].
    by apply list_elem_of_filter.
Qed.

Lemma NoDup_clean items : NoDup (logic_py.clean_extracted_items items).
Proof.
  unfold logic_py.clean_extracted_items.
  rewrite sorted_Permutation. apply NoDup_elements.
Qed.

Lemma Sorted_clean items : Sorted str_le (logic_py.clean_extracted_items items).
Proof. apply Sorted_sorted. Qed.

(** The loop of test.py keeps the keys in the order of their first
    occurrence, and shows each capitalized. *)
Lemma clean_fold items ks :
  fold_left test_py.clean_step items (capitalize <$> ks, list_to_set ks)
  = (capitalize <$> fold_left seen_step (canonical_key <$> items) ks,
     list_to_set (fold_left seen_step (canonical_key <$> items) ks)).
Proof.
  revert ks. induction items as [|item items IH]; intros ks; [done |].
  cbn [fold_left fmap list_fmap]. unfold test_py.clean_step at 2, seen_step at 2 4.
  fold (canonical_key item).
  destruct (decide (canonical_key item ∈ ks)) as [Hin | Hin].
  - rewrite decide_False by (rewrite elem_of_list_to_set; tauto). apply IH.
  - rewrite decide_True by (by rewrite elem_of_list_to_set).
    rewrite <- (IH (ks ++ [canonical_key item])).
    by rewrite fmap_app, list_to_set_snoc_L.
Qed.

Lemma test_clean_spec items :
  test_py.clean_extracted_items items
  = capitalize <$> first_seen (canonical_key <$> items).
Proof.
  unfold test_py.clean_extracted_items, first_seen.
  change ([] : list str) with (capitalize <$> []) at 1.
  change (∅ : gset str) with (list_to_set [] : gset str).
  by rewrite clean_fold.
Qed.

Lemma elem_of_seen l ks x :
  x ∈ fold_left seen_step l ks ↔ x ∈ ks ∨ x ∈ l.
Proof.
  revert ks. induction l as [|k l IH]; intros ks; simpl.
  - rewrite elem_of_nil. tauto.
  - rewrite IH, elem_of_cons. unfold seen_step. case_decide.
    + split; [tauto |]. intros [? | [-> | ?]]; auto.
    + rewrite elem_of_app, list_elem_of_singleton. tauto.
Qed.

Lemma NoDup_seen l ks : NoDup ks → NoDup (fold_left seen_step l ks).
Proof.
  revert ks. induction l as [|k l IH]; intros ks Hks; simpl; [done |].
  apply IH. unfold seen_step. case_decide; [done |].
  apply NoDup_app. split_and!; [done | | apply NoDup_singleton].
  intros x Hx ->%list_elem_of_singleton. done.
Qed.

Lemma seen_NoDup l ks : NoDup (ks ++ l) → fold_left seen_step l ks = ks ++ l.
Proof.
  revert ks. induction l as [|k l IH]; intros ks Hn; simpl.
  - by rewrite app_nil_r.
  - unfold seen_step. rewrite decide_False.
    + rewrite IH, <- app_assoc; [done |]. by rewrite <- app_assoc.
    + apply NoDup_app in Hn as (_ & Hd & _). intros Hk.
      apply (Hd k Hk). by left.
Qed.

Lemma first_seen_NoDup l : NoDup l → first_seen l = l.
Proof. intros Hn. unfold first_seen. by rewrite seen_NoDup. Qed.

Lemma NoDup_first_seen l : NoDup (first_seen l).
Proof. apply NoDup_seen, NoDup_nil_2. Qed.

Lemma elem_of_first_seen l x : x ∈ first_seen l ↔ x ∈ l.
Proof. unfold first_seen. rewrite elem_of_seen, elem_of_nil. tauto. Qed.
End Normalizer.

(** ** The classifier and the pipeline on the lines of the specification *)

(** C1. On the six raw lines of the end-to-end example the pipeline of
    logic.py keeps "Bread" alone and computes a deposit of 0: the lines
    STORE, TOTAL and THANK YOU are excluded, and so is the Coca Cola line,
    whose euro sign the symbol test rejects before the price-pattern test
    that was written to accept it; no item matches the bottle vocabulary. *)
Theorem pipeline_loses_coca_cola_line :
  let lines := [ py "STORE XYZ"; py "Milk 2%  1.99€"; py "Bread";
                 py "Coca Cola 0.5L 1.20€"; py "TOTAL 3.19€"; py "THANK YOU" ] in
  logic_py.is_item_line (py "Coca Cola 0.5L 1.20€") = false ∧
  logic_py.process_receipt lines = [py "Bread"] ∧
  logic_py.calculate_pfand (logic_py.process_receipt lines) = 0%Q.
Proof. vm_compute. auto. Qed.

(** C2. The line "Milk 3.50€" holds a price pattern and alphabetic
    characters, contains no clutter keyword, is not dense in digits and has
    an accepted length, and the classifier of logic.py still returns false
    on it: the euro sign is a symbol for the test of line 28. *)
Theorem price_line_with_text_rejected :
  let text := py "Milk 3.50€" in
  any (λ keyword, contains keyword (lower text)) logic_py.clutter_keywords = false ∧
  Float.int_gt (digit_count text)
    (Float.mul (Float.of_int (len text)) Float.lit_0_6) = false ∧
  (len text <? 5)%Z || (len text >? 50)%Z = false ∧
  re_search logic_py.price_pattern text = true ∧
  any isalpha text = true ∧
  re_search (Class logic_py.symbol) text = true ∧
  logic_py.is_item_line text = false.
Proof. vm_compute. repeat split. Qed.

(** C3. Whenever the euro sign and the dollar sign are symbols of the
    character database, is_item_line of logic.py returns false on every
    string that contains one of them; and since a match of the price
    pattern ends in one of them, is_item_line returns false on every string
    in which the price pattern is found: the accepting branch of the
    price-pattern test is never taken. *)
Theorem currency_line_rejected (U : Unicode) (S : CurrencySigns U) (text : str) :
  (euro ∈ text ∨ dollar ∈ text →
   re_search (Class logic_py.symbol) text = true ∧
   logic_py.is_item_line text = false) ∧
  (re_search logic_py.price_pattern text = true →
   logic_py.is_item_line text = false).
Proof.
  assert (∀ c, c ∈ text → logic_py.currency c = true →
               re_search (Class logic_py.symbol) text = true ∧
               logic_py.is_item_line text = false) as Hrej.
  { intros c Hin Hc. apply currency_symbol in Hc. split.
    - apply re_search_class. eauto.
    - by apply (is_item_line_symbol text c Hin). }
  split.
  - intros [H | H]; apply (Hrej _ H); apply currency_cases; auto.
  - intros (c & Hin & Hc)%price_pattern_currency. by apply (Hrej c).
Qed.

Lemma currency_line_rejected_witness :
  euro ∈ py "Milk 3.50€" ∧
  re_search logic_py.price_pattern (py "Milk 3.50€") = true ∧
  logic_py.is_item_line (py "Milk 3.50€") = false.
Proof.
  assert (euro ∈ py "Milk 3.50€") as Hin
    by (apply list_elem_of_In; vm_compute; tauto).
  split; [exact Hin |]. split; [vm_compute; reflexivity |].
  apply (proj1 (currency_line_rejected ascii_db ascii_currency_signs
                  (py "Milk 3.50€"))).
  left. exact Hin.
Defined.

(** C4. is_item_line of logic.py returns false on every string whose
    lower-cased form contains a keyword of the clutter vocabulary as a
    substring. *)
Theorem clutter_keyword_rejected (U : Unicode) (text keyword : str) :
  keyword ∈ logic_py.clutter_keywords →
  (∃ pre post, lower text = pre ++ keyword ++ post) →
  logic_py.is_item_line text = false.
Proof.
  intros Hk Hsub. apply (is_item_line_keyword text keyword Hk).
  by apply contains_spec.
Qed.

Lemma clutter_keyword_rejected_witness :
  py "total" ∈ logic_py.clutter_keywords ∧
  lower (py "SubTotal 12") = py "sub" ++ py "total" ++ py " 12" ∧
  logic_py.is_item_line (py "SubTotal 12") = false.
Proof.
  assert (py "total" ∈ logic_py.clutter_keywords) as Hk
    by (apply list_elem_of_In; vm_compute; tauto).
  split; [exact Hk |]. split; [reflexivity |].
  apply (clutter_keyword_rejected ascii_db (py "SubTotal 12") (py "total") Hk).
  exists (py "sub"), (py " 12"). reflexivity.
Defined.

(** C5. is_item_line of logic.py returns false on every string whose
    decimal digits are more than 60% of its characters (all characters
    counted, spaces and punctuation too), and on every string shorter than
    5 or longer than 50 characters. *)
Theorem density_and_length_bounds (U : Unicode) (text : str) :
  (5 * digit_count text > 3 * len text ∨ len text < 5 ∨ len text > 50)%Z →
  logic_py.is_item_line text = false.
Proof.
  intros [H | H]; [by apply is_item_line_density | by apply is_item_line_length].
Qed.

Lemma density_and_length_bounds_witness :
  (5 * digit_count (py "12345 ab") > 3 * len (py "12345 ab"))%Z ∧
  logic_py.is_item_line (py "12345 ab") = false.
Proof.
  assert (5 * digit_count (py "12345 ab") > 3 * len (py "12345 ab"))%Z as H
    by (vm_compute; reflexivity).
  split; [exact H |].
  apply (density_and_length_bounds ascii_db (py "12345 ab")). left. exact H.
Defined.

(** ** The deposit *)

Lemma sum_ones_count {A} (p : A → bool) (xs : list A) :
  sum_ones p xs = len (filter (λ x, p x = true) xs).
Proof.
  unfold sum_ones, len. induction (filter _ xs) as [|x l IH]; [done |].
  cbn [fmap list_fmap foldr length]. rewrite IH. lia.
Qed.

(** A whole number of quarters has at most two decimals: rounding it to two
    decimals changes nothing. *)
Lemma round_quarters (n : Z) :
  (round (inject_Z n * 0.25) 2 == inject_Z n * 0.25)%Q.
Proof.
  unfold round. rewrite Qred_correct.
  change (10 ^ Z.of_nat 2)%Z with 100%Z.
  assert (inject_Z n * 0.25 * inject_Z 100 == inject_Z (25 * n))%Q as E.
  { unfold Qeq. simpl. lia. }
  assert (round_half_even (inject_Z n * 0.25 * inject_Z 100) = (25 * n)%Z) as ->.
  { unfold round_half_even. rewrite (Qfloor_comp _ _ E), Qfloor_Z.
    replace (_ ?= _)%Q with Lt; [done |]. symmetry.
    apply (proj1 (Qlt_alt _ _)). unfold Qlt. simpl. lia. }
  unfold Qeq. simpl. lia.
Qed.

Section Deposit.
Context {U : Unicode}.
Import logic_py.

Lemma is_bottle_spec (item : str) :
  is_bottle item = true ↔
  ∃ keyword pre w post,
    keyword ∈ bottle_keywords ∧ item = pre ++ w ++ post ∧ lower w = keyword.
Proof.
  unfold is_bottle, any. rewrite any_spec. split.
  - intros (keyword & Hk & Hc). apply contains_spec, lower_substring in Hc.
    destruct Hc as (pre & w & post & E & Hw). by exists keyword, pre, w, post.
  - intros (keyword & pre & w & post & Hk & E & Hw). exists keyword.
    split; [done |]. apply contains_spec, lower_substring.
    by exists pre, w, post.
Qed.

Lemma calculate_pfand_quarters (items : list str) :
  (calculate_pfand items
   == inject_Z (len (filter (λ item, is_bottle item = true) items)) * 0.25)%Q.
Proof.
  unfold calculate_pfand. rewrite sum_ones_count. apply round_quarters.
Qed.
End Deposit.

(** C8. calculate_pfand returns the number of items of which some
    substring lower-cases to a term of the bottle vocabulary, times 0.25,
    rounded to two decimals, which is that product itself; the result is
    never negative; it is 0 on the empty list and 0.50 on
    ["Coca cola 500ml", "Bread", "Pepsi bottle"]. *)
Theorem deposit_formula (U : Unicode) (items : list str) :
  let matching := filter (λ item, logic_py.is_bottle item = true) items in
  (∀ item, item ∈ matching ↔
     item ∈ items ∧
     ∃ keyword pre w post,
       keyword ∈ logic_py.bottle_keywords ∧
       item = pre ++ w ++ post ∧ lower w = keyword) ∧
  (∀ item, item ∈ matching ↔
     item ∈ items ∧
     ∃ keyword pre post,
       keyword ∈ logic_py.bottle_keywords ∧
       lower item = pre ++ keyword ++ post) ∧
  logic_py.calculate_pfand items = round (inject_Z (len matching) * 0.25) 2 ∧
  (logic_py.calculate_pfand items == inject_Z (len matching) * 0.25)%Q ∧
  (0 <= logic_py.calculate_pfand items)%Q ∧
  (logic_py.calculate_pfand [] == 0.00)%Q ∧
  (logic_py.calculate_pfand (U := ascii_db)
     [py "Coca cola 500ml"; py "Bread"; py "Pepsi bottle"] == 0.50)%Q.
Proof.
  intros matching. split_and!.
  - intros item. unfold matching.
    rewrite list_elem_of_filter, is_bottle_spec. tauto.
  - intros item. unfold matching.
    rewrite list_elem_of_filter, is_bottle_spec.
    split.
    + intros [(keyword & pre & w & post & Hk & E & Hw) Hin]. split; [done |].
      destruct (proj2 (lower_substring keyword item)) as (pre' & post' & E');
        [by exists pre, w, post |].
      by exists keyword, pre', post'.
    + intros [Hin (keyword & pre & post & Hk & E)]. split; [|done].
      destruct (proj1 (lower_substring keyword item)) as (pre' & w & post' & ? & ?);
        [by exists pre, post |].
      by exists keyword, pre', w, post'.
  - unfold logic_py.calculate_pfand. by rewrite sum_ones_count.
  - apply calculate_pfand_quarters.
  - rewrite calculate_pfand_quarters. unfold len, Qle. simpl. lia.
  - reflexivity.
  - vm_compute. reflexivity.
Qed.

(** ** The normalizers on regular characters *)
Section Normalized.
Context {U : Unicode}.

(** An entry of the sorted normalizer is trimmed, non-empty and already
    capitalized, and is recovered from its key. *)
Lemma clean_entry items e :
  regular_items items → e ∈ logic_py.clean_extracted_items items →
  trimmed e ∧ e ≠ [] ∧ capitalize e = e ∧ capitalize (canonical_key e) = e.
Proof.
  intros Hr (c & Hc & Hne & ->)%elem_of_clean.
  pose proof (strip_trimmed c) as Ht.
  assert (Forall regular (strip c)) as Hs.
  { apply Forall_strip. by apply (proj1 (Forall_forall _ _) Hr). }
  split_and!.
  - by apply trimmed_capitalize.
  - by destruct (strip c).
  - by apply capitalize_capitalize.
  - by apply capitalize_key_capitalize.
Qed.

Lemma clean_key_inj items e1 e2 :
  regular_items items →
  e1 ∈ logic_py.clean_extracted_items items →
  e2 ∈ logic_py.clean_extracted_items items →
  canonical_key e1 = canonical_key e2 → e1 = e2.
Proof.
  intros Hr H1 H2 E.
  destruct (clean_entry items e1 Hr H1) as (_ & _ & _ & E1).
  destruct (clean_entry items e2 Hr H2) as (_ & _ & _ & E2).
  by rewrite <- E1, <- E2, E.
Qed.

Lemma test_clean_keys items :
  regular_items items →
  canonical_key <$> test_py.clean_extracted_items items
  = first_seen (canonical_key <$> items).
Proof.
  intros Hr. rewrite test_clean_spec, <- list_fmap_compose.
  rewrite <- (list_fmap_id (first_seen _)) at 2.
  apply list_fmap_ext. intros i k Hk. apply list_elem_of_lookup_2 in Hk.
  apply elem_of_first_seen, list_elem_of_fmap in Hk as (x & -> & Hx).
  apply key_capitalize_key. by apply (proj1 (Forall_forall _ _) Hr).
Qed.

Lemma filter_all {A} (P : A → Prop) `{∀ x, Decision (P x)} (l : list A) :
  (∀ x, x ∈ l → P x) → filter P l = l.
Proof.
  induction l as [|x l IH]; intros Hl; [done |].
  rewrite filter_cons_True by (apply Hl; by left).
  f_equal. apply IH. intros y Hy. apply Hl. by right.
Qed.

Lemma clean_clean items :
  regular_items items →
  logic_py.clean_extracted_items (logic_py.clean_extracted_items items)
  = logic_py.clean_extracted_items items.
Proof.
  intros Hr. set (l := logic_py.clean_extracted_items items).
  unfold logic_py.clean_extracted_items at 1.
  rewrite filter_all.
  - replace ((λ item, capitalize (strip item)) <$> l) with l.
    + apply sorted_set_fixed; [apply Sorted_clean | apply NoDup_clean].
    + rewrite <- (list_fmap_id l) at 1. apply list_fmap_ext.
      intros i e He. apply list_elem_of_lookup_2, clean_entry in He; [|done].
      destruct He as (Ht & _ & Hc & _). by rewrite strip_id, Hc.
  - intros e (Ht & Hne & _)%clean_entry; [|done]. by rewrite strip_id.
Qed.

Lemma test_clean_clean items :
  regular_items items →
  test_py.clean_extracted_items (test_py.clean_extracted_items items)
  = test_py.clean_extracted_items items.
Proof.
  intros Hr. rewrite (test_clean_spec (test_py.clean_extracted_items items)).
  rewrite test_clean_keys, first_seen_NoDup by (done || apply NoDup_first_seen).
  by rewrite test_clean_spec.
Qed.
End Normalized.

(** C6, as stated: no two entries of the result have the same canonical
    key, whatever the input. It fails in logic.py on the two items "Ka",
    one written with the Kelvin sign and one with the letter K: both are
    kept, and both have the key "ka". *)
Lemma kelvin_entries_share_key :
  ¬ NoDup (canonical_key (U := latin_db) <$>
             logic_py.clean_extracted_items (U := latin_db)
               [kelvin :: py "a"; py "Ka"]).
Proof.
  assert (canonical_key (U := latin_db) <$>
            logic_py.clean_extracted_items (U := latin_db)
              [kelvin :: py "a"; py "Ka"]
          = [py "ka"; py "ka"]) as -> by (vm_compute; reflexivity).
  intros [Hnot _]%NoDup_cons. apply Hnot. by left.
Qed.

(** C6, amended. For every input whose characters are regular (as all
    ASCII characters are), no two entries of the list returned by
    clean_extracted_items, in logic.py and in test.py, have the same
    canonical key (the entry lower-cased and trimmed); and on
    ["milk", "Milk", " MILK "] both return ["Milk"]. *)
Theorem normalizer_deduplicated (U : Unicode) (items : list str) :
  regular_items items →
  NoDup (canonical_key <$> logic_py.clean_extracted_items items) ∧
  NoDup (canonical_key <$> test_py.clean_extracted_items items) ∧
  logic_py.clean_extracted_items (U := ascii_db)
    [py "milk"; py "Milk"; py " MILK "] = [py "Milk"] ∧
  test_py.clean_extracted_items (U := ascii_db)
    [py "milk"; py "Milk"; py " MILK "] = [py "Milk"].
Proof.
  intros Hr. split_and!.
  - apply NoDup_fmap_2_strong; [|apply NoDup_clean].
    intros e1 e2. by apply clean_key_inj.
  - rewrite test_clean_keys by done. apply NoDup_first_seen.
  - vm_compute. reflexivity.
  - vm_compute. reflexivity.
Qed.

Lemma normalizer_deduplicated_witness :
  regular_items [py "kiwi"; py " Kiwi"; py "FIG"] ∧
  NoDup (canonical_key <$>
           logic_py.clean_extracted_items [py "kiwi"; py " Kiwi"; py "FIG"]) ∧
  NoDup (canonical_key <$>
           test_py.clean_extracted_items [py "kiwi"; py " Kiwi"; py "FIG"]).
Proof.
  pose proof (ascii_regular_items [py "kiwi"; py " Kiwi"; py "FIG"]) as Hr.
  pose proof (normalizer_deduplicated ascii_db
                [py "kiwi"; py " Kiwi"; py "FIG"] Hr) as (H1 & H2 & _).
  exact (conj Hr (conj H1 H2)).
Defined.

(** C7, as stated: every entry is a trimmed candidate with its first
    character upper-cased and its remainder unchanged. It fails on
    ["coca Cola"], whose entry is "Coca cola". *)
Lemma surface_remainder_not_kept :
  ¬ (∀ e, e ∈ logic_py.clean_extracted_items [py "coca Cola"] →
          ∃ c, c ∈ [py "coca Cola"] ∧ e = recapitalize (strip c)).
Proof.
  intros H. destruct (H (py "Coca cola")) as (c & Hc & E).
  - apply list_elem_of_In. vm_compute. tauto.
  - apply list_elem_of_singleton in Hc as ->. vm_compute in E. discriminate E.
Qed.

(** C7, amended. The entries of clean_extracted_items are the candidates
    trimmed and capitalized, first character title-cased and remaining
    characters lower-cased (in logic.py the candidates whose trimmed form is
    not empty, in test.py all of them, in the order of the first occurrence
    of their keys); and when the characters of the input are regular, the
    entry that has the canonical key of a candidate is that candidate
    trimmed and capitalized, whichever occurrence of the key comes first. *)
Theorem normalizer_surface_form (U : Unicode) (items : list str) :
  regular_items items →
  (∀ e, e ∈ logic_py.clean_extracted_items items ↔
        ∃ c c0 rest, c ∈ items ∧ strip c = c0 :: rest ∧
                     e = totitle c0 :: lower rest) ∧
  (∀ e, e ∈ test_py.clean_extracted_items items ↔
        ∃ c, c ∈ items ∧ e = capitalize (strip c)) ∧
  test_py.clean_extracted_items items
    = capitalize <$> first_seen (canonical_key <$> items) ∧
  (∀ c e, c ∈ items →
     e ∈ logic_py.clean_extracted_items items ∨
     e ∈ test_py.clean_extracted_items items →
     canonical_key e = canonical_key c → e = capitalize (strip c)).
Proof.
  intros Hr.
  assert (∀ c, c ∈ items → Forall regular (strip c)) as Hrs.
  { intros c Hc. apply Forall_strip. by apply (proj1 (Forall_forall _ _) Hr). }
  assert (∀ e, e ∈ test_py.clean_extracted_items items ↔
               ∃ c, c ∈ items ∧ e = capitalize (strip c)) as Htest.
  { intros e. rewrite test_clean_spec, list_elem_of_fmap.
    setoid_rewrite elem_of_first_seen. setoid_rewrite list_elem_of_fmap.
    unfold canonical_key. split.
    - intros (k & -> & c & -> & Hc). exists c. by rewrite capitalize_lower by auto.
    - intros (c & Hc & ->). exists (lower (strip c)).
      rewrite capitalize_lower by auto. eauto. }
  split_and!; [| exact Htest | apply test_clean_spec |].
  - intros e. rewrite elem_of_clean. split.
    + intros (c & Hc & Hne & ->). destruct (strip c) as [|c0 rest] eqn:E; [done |].
      by exists c, c0, rest.
    + intros (c & c0 & rest & Hc & E & ->). exists c. by rewrite E.
  - intros c e Hc He Hk.
    assert (∃ c', c' ∈ items ∧ e = capitalize (strip c')) as (c' & Hc' & ->).
    { destruct He as [(c' & ? & _ & ->)%elem_of_clean | (c' & ? & ->)%Htest]; eauto. }
    rewrite <- (capitalize_lower (strip c)), <- (capitalize_lower (strip c')) by auto.
    f_equal. fold (canonical_key c) (canonical_key c'). rewrite <- Hk.
    symmetry. apply key_capitalize; [auto | apply strip_trimmed].
Qed.

Lemma normalizer_surface_form_witness :
  regular_items [py "coca Cola"; py "COCA COLA "] ∧
  py "Coca cola" ∈ logic_py.clean_extracted_items [py "coca Cola"; py "COCA COLA "] ∧
  py "Coca cola" ∈ test_py.clean_extracted_items [py "coca Cola"; py "COCA COLA "].
Proof.
  pose proof (ascii_regular_items [py "coca Cola"; py "COCA COLA "]) as Hr.
  pose proof (normalizer_surface_form ascii_db
                [py "coca Cola"; py "COCA COLA "] Hr) as (H1 & H2 & _).
  split; [exact Hr |]. split.
  - apply H1. exists (py "coca Cola"), 99, (py "oca Cola").
    split; [by left |]. split; reflexivity.
  - apply H2. exists (py "coca Cola"). split; [by left | reflexivity].
Defined.

(** C9, as stated: the normalizer applied twice is the normalizer applied
    once, in each variant, whatever the input. It fails in test.py on the
    long s followed by "s": the keys differ, both entries are "S", and the
    second pass keeps one of them. *)
Lemma long_s_breaks_idempotence :
  test_py.clean_extracted_items (U := latin_db)
    (test_py.clean_extracted_items (U := latin_db) [[long_s]; py "s"])
  ≠ test_py.clean_extracted_items (U := latin_db) [[long_s]; py "s"].
Proof. vm_compute. discriminate. Qed.

(** C9, amended. For every list of strings whose characters are regular
    (as all ASCII characters are), clean_extracted_items applied twice is
    clean_extracted_items applied once, in logic.py and in test.py. *)
Theorem normalizer_idempotent (U : Unicode) (x : list str) :
  regular_items x →
  logic_py.clean_extracted_items (logic_py.clean_extracted_items x)
  = logic_py.clean_extracted_items x ∧
  test_py.clean_extracted_items (test_py.clean_extracted_items x)
  = test_py.clean_extracted_items x.
Proof. intros Hr. split; [by apply clean_clean | by apply test_clean_clean]. Qed.

Lemma normalizer_idempotent_witness :
  regular_items [py " pear"; py "Fig "; py "PEAR"; py "  "] ∧
  logic_py.clean_extracted_items
    (logic_py.clean_extracted_items [py " pear"; py "Fig "; py "PEAR"; py "  "])
  = logic_py.clean_extracted_items [py " pear"; py "Fig "; py "PEAR"; py "  "] ∧
  test_py.clean_extracted_items
    (test_py.clean_extracted_items [py " pear"; py "Fig "; py "PEAR"; py "  "])
  = test_py.clean_extracted_items [py " pear"; py "Fig "; py "PEAR"; py "  "].
Proof.
  pose proof (ascii_regular_items [py " pear"; py "Fig "; py "PEAR"; py "  "]) as Hr.
  exact (conj Hr (normalizer_idempotent ascii_db _ Hr)).
Defined.

(** C10, as stated: the list of logic.py is in ascending order of the
    canonical keys of its entries. It fails on ["_x", "apple"]: the result
    is ["Apple", "_x"], with keys "apple" and "_x", and "_" comes before
    "a". *)
Lemma keys_not_ascending :
  ¬ Sorted str_le
      (canonical_key <$> logic_py.clean_extracted_items [py "_x"; py "apple"]).
Proof.
  assert (canonical_key <$> logic_py.clean_extracted_items [py "_x"; py "apple"]
          = [py "apple"; py "_x"]) as -> by (vm_compute; reflexivity).
  intros H. apply Sorted_inv in H as [_ H]. apply HdRel_inv in H.
  vm_compute in H. discriminate H.
Qed.

(** C10, amended. The list returned by clean_extracted_items of logic.py
    is in strictly ascending lexicographic order of its entries themselves,
    compared code point by code point. *)
Theorem normalizer_sorted_by_entries (U : Unicode) (items : list str) :
  StronglySorted (λ s t, str_le s t ∧ s ≠ t)
    (logic_py.clean_extracted_items items).
Proof.
  pose proof (Sorted_clean items) as Hs.
  apply (Sorted_StronglySorted str_le) in Hs.
  pose proof (NoDup_clean items) as Hn.
  induction Hs as [|e l Hs IH Hall]; [constructor |].
  apply NoDup_cons in Hn as [Hnot Hn]. constructor; [by apply IH |].
  rewrite Forall_forall in Hall |- *. intros t Ht. split; [by apply Hall |].
  intros ->. done.
Qed.

(** * Further properties of the two files *)

(** ** What the classifiers accept *)

Lemma any_false {A} (p : A → bool) (l : list A) :
  existsb p l = false ↔ ∀ x, x ∈ l → p x = false.
Proof.
  rewrite <- not_true_iff_false, any_spec. split.
  - intros Hno x Hx. apply not_true_iff_false. intros Hp. apply Hno. eauto.
  - intros Hall (x & Hx & Hp). rewrite (Hall x Hx) in Hp. discriminate.
Qed.

Lemma one_of_spec (cs : str) (c : char) : one_of cs c = true ↔ c ∈ cs.
Proof.
  unfold one_of. rewrite any_spec. split.
  - intros (x & Hx & ->%N.eqb_eq). done.
  - intros Hc. exists c. by rewrite N.eqb_refl.
Qed.

Lemma re_search_class_false (p : char → bool) (s : str) :
  re_search (Class p) s = false ↔ ∀ c, c ∈ s → p c = false.
Proof.
  rewrite <- not_true_iff_false, re_search_class. split.
  - intros Hno c Hc. apply not_true_iff_false. intros Hp. apply Hno. eauto.
  - intros Hall (c & Hc & Hp). rewrite (Hall c Hc) in Hp. discriminate.
Qed.

Lemma no_keyword_spec `{Unicode} (keywords : list str) (text : str) :
  any (λ keyword, contains keyword (lower text)) keywords = false ↔
  ∀ keyword, keyword ∈ keywords →
             ¬ ∃ pre post, lower text = pre ++ keyword ++ post.
Proof.
  unfold any. rewrite any_false. split.
  - intros Hall k Hk Hsub. apply contains_spec in Hsub.
    rewrite (Hall k Hk) in Hsub. discriminate.
  - intros Hall k Hk. apply not_true_iff_false. intros Hc.
    apply (Hall k Hk). by apply contains_spec.
Qed.

Ltac refute_iff :=
  split; [discriminate | intros H; decompose [and] H; congruence].

Section Acceptance.
Context {U : Unicode}.

Lemma logic_accepts_iff `{!CurrencySigns U} (text : str) :
  logic_py.is_item_line text = true ↔
  (∀ keyword, keyword ∈ logic_py.clutter_keywords →
     ¬ ∃ pre post, lower text = pre ++ keyword ++ post) ∧
  (5 * digit_count text ≤ 3 * len text)%Z ∧
  (∀ c, c ∈ text → logic_py.symbol c = false) ∧
  (5 ≤ len text ≤ 50)%Z.
Proof.
  rewrite <- no_keyword_spec, <- re_search_class_false.
  unfold logic_py.is_item_line. rewrite len_findall_class.
  change (len (filter _ text)) with (digit_count text).
  destruct (any _ logic_py.clutter_keywords); [refute_iff |].
  destruct (re_search (Class logic_py.symbol) text) eqn:Hs;
    [rewrite orb_true_r; refute_iff |].
  rewrite orb_false_r.
  destruct ((len text <? 5)%Z || (len text >? 50)%Z) eqn:Hl.
  - apply orb_true_iff in Hl. rewrite Z.ltb_lt, Z.gtb_gt in Hl.
    destruct (Float.int_gt _ _); split; try discriminate; intros (_ & _ & _ & ?); lia.
  - apply orb_false_iff in Hl as [Hl1 Hl2].
    apply Z.ltb_ge in Hl1. rewrite Z.gtb_ltb in Hl2. apply Z.ltb_ge in Hl2.
    rewrite density_exact by (auto using digit_count_le).
    destruct (3 * len text <? 5 * digit_count text)%Z eqn:Hd.
    + apply Z.ltb_lt in Hd. split; [discriminate |]. intros (_ & ? & _). lia.
    + apply Z.ltb_ge in Hd.
      destruct (re_search logic_py.price_pattern text) eqn:Hp.
      * apply price_pattern_currency in Hp as (c & Hc & Hcur).
        apply currency_symbol in Hcur.
        rewrite re_search_class_false in Hs. rewrite (Hs c Hc) in Hcur.
        discriminate.
      * split; [intros _ | done]. split_and!; auto; lia.
Qed.

Lemma test_accepts_iff (text : str) :
  test_py.is_item_line text = true ↔
  (∀ keyword, keyword ∈ test_py.clutter_keywords →
     ¬ ∃ pre post, lower text = pre ++ keyword ++ post) ∧
  (digit_count text ≤ 2)%Z ∧
  (3 ≤ len text ≤ 50)%Z ∧
  (∀ c, c ∈ text → test_py.special c = false).
Proof.
  rewrite <- no_keyword_spec, <- re_search_class_false.
  unfold test_py.is_item_line. rewrite len_findall_class.
  change (len (filter _ text)) with (digit_count text).
  destruct (any _ test_py.clutter_keywords); [refute_iff |].
  destruct (digit_count text >? 2)%Z eqn:Hd.
  - apply Z.gtb_gt in Hd. split; [discriminate |]. intros (_ & ? & _). lia.
  - rewrite Z.gtb_ltb in Hd. apply Z.ltb_ge in Hd.
    destruct ((len text <? 3)%Z || (len text >? 50)%Z) eqn:Hl.
    + apply orb_true_iff in Hl. rewrite Z.ltb_lt, Z.gtb_gt in Hl.
      split; [discriminate |]. intros (_ & _ & ? & _). lia.
    + apply orb_false_iff in Hl as [Hl1 Hl2].
      apply Z.ltb_ge in Hl1. rewrite Z.gtb_ltb in Hl2. apply Z.ltb_ge in Hl2.
      destruct (re_search (Class test_py.special) text); [refute_iff |].
      split; [intros _ | done]. split_and!; auto; lia.
Qed.
End Acceptance.

(** X1. With the currency signs classed as symbols, is_item_line of
    logic.py returns true exactly on the lines whose lower-cased form
    contains no clutter keyword, whose digits are at most 60% of the
    characters, whose characters are all word characters, white space,
    periods or commas, and whose length is between 5 and 50: the
    price-pattern test changes nothing. *)
Theorem logic_acceptance (U : Unicode) (S : CurrencySigns U) (text : str) :
  logic_py.is_item_line text = true ↔
  (∀ keyword, keyword ∈ logic_py.clutter_keywords →
     ¬ ∃ pre post, lower text = pre ++ keyword ++ post) ∧
  (5 * digit_count text ≤ 3 * len text)%Z ∧
  (∀ c, c ∈ text → logic_py.word c || isspace c || one_of (py ".,") c = true) ∧
  (5 ≤ len text ≤ 50)%Z.
Proof.
  rewrite logic_accepts_iff. unfold logic_py.symbol.
  by setoid_rewrite negb_false_iff.
Qed.

Lemma logic_acceptance_witness :
  logic_py.is_item_line (py "Rye bread 1kg") = true ∧
  (5 * digit_count (py "Rye bread 1kg") ≤ 3 * len (py "Rye bread 1kg"))%Z.
Proof.
  pose proof (proj1 (logic_acceptance ascii_db ascii_currency_signs
                       (py "Rye bread 1kg")) eq_refl) as (_ & Hd & _).
  split; [reflexivity | exact Hd].
Defined.

(** X2. is_item_line of test.py returns true exactly on the lines whose
    lower-cased form contains none of its 14 clutter keywords, that have at
    most two digits, a length between 3 and 50, and none of the special
    characters of line 33. *)
Theorem test_acceptance (U : Unicode) (text : str) :
  test_py.is_item_line text = true ↔
  (∀ keyword, keyword ∈ test_py.clutter_keywords →
     ¬ ∃ pre post, lower text = pre ++ keyword ++ post) ∧
  (digit_count text ≤ 2)%Z ∧
  (3 ≤ len text ≤ 50)%Z ∧
  (∀ c, c ∈ text → test_py.special c = false).
Proof. apply test_accepts_iff. Qed.

Lemma contains_weaken (k k' s : str) :
  (∃ pre post, k = pre ++ k' ++ post) →
  contains k s = true → contains k' s = true.
Proof.
  intros (p1 & q1 & ->) (p2 & q2 & ->)%contains_spec. apply contains_spec.
  exists (p2 ++ p1), (q1 ++ q2). by rewrite <- !app_assoc.
Qed.

(** X3. The clutter vocabulary of logic.py is that of test.py with 16 more
    keywords, of which "subtotal" never decides, as it contains "total":
    the keyword test of logic.py holds exactly when that of test.py holds
    or one of the 15 others occurs. *)
Theorem clutter_vocabularies (U : Unicode) (s : str) :
  any (λ keyword, contains keyword s) logic_py.clutter_keywords
  = any (λ keyword, contains keyword s) test_py.clutter_keywords
    || any (λ keyword, contains keyword s)
         [ py "discount"; py "offer"; py "feedback"; py "survey"; py "prices";
           py "network"; py "terminal"; py "ref"; py "aid"; py "appr code";
           py "st#"; py "op#"; py "te#"; py "tr#"; py "tc#" ].
Proof.
  unfold any.
  change logic_py.clutter_keywords with
    (test_py.clutter_keywords ++ py "subtotal" ::
       [ py "discount"; py "offer"; py "feedback"; py "survey"; py "prices";
         py "network"; py "terminal"; py "ref"; py "aid"; py "appr code";
         py "st#"; py "op#"; py "te#"; py "tr#"; py "tc#" ]).
  rewrite existsb_app. cbn [existsb].
  destruct (contains (py "subtotal") s) eqn:E; [|done].
  replace (existsb _ test_py.clutter_keywords) with true; [done |].
  symmetry. apply any_spec. exists (py "total"). split.
  - apply list_elem_of_In. vm_compute. tauto.
  - apply (contains_weaken (py "subtotal")); [|done].
    by exists (py "sub"), [].
Qed.

(** ** Lines without letters, and the two classifiers compared (ASCII) *)

Lemma contains_head (a : char) (k s : str) :
  contains (a :: k) s = true → a ∈ s.
Proof.
  intros (pre & post & ->)%contains_spec. rewrite elem_of_app. right. by left.
Qed.

Lemma filter_none {A} (p : A → bool) (l : list A) :
  (∀ x, x ∈ l → p x = false) → filter (λ x, p x = true) l = [].
Proof.
  induction l as [|x l IH]; intros Hl; [done |].
  rewrite filter_cons_False by (rewrite Hl; [done | by left]).
  apply IH. intros y Hy. apply Hl. by right.
Qed.

Lemma ascii_blank_char (c : char) :
  @isspace ascii_db c || one_of (py ".,") c = true →
  @tolower ascii_db c = c ∧ @isdecimal ascii_db c = false ∧
  @isalnum ascii_db c = false ∧ c ≠ underscore.
Proof.
  intros H. assert (9 ≤ c ≤ 13 ∨ 28 ≤ c ≤ 32 ∨ c = 46 ∨ c = 44) as Hc.
  { apply orb_true_iff in H as [H | H].
    - cbn [isspace ascii_db] in H.
      apply orb_true_iff in H as [H | H]; apply in_range_spec in H; auto.
    - apply one_of_spec in H. change (py ".,") with [46; 44] in H.
      rewrite !elem_of_cons, elem_of_nil in H. tauto. }
  cbn [tolower isdecimal isalnum ascii_db]. unfold underscore.
  case_range; simpl; split_and!; try reflexivity; lia.
Qed.

(** Every keyword of both vocabularies starts with a letter. *)
Lemma keywords_start_with_letter (k : str) :
  k ∈ logic_py.clutter_keywords →
  ∃ a rest, k = a :: rest ∧ @isspace ascii_db a || one_of (py ".,") a = false.
Proof.
  intros Hk.
  assert (forallb (λ k, match k with
                        | a :: _ => negb (@isspace ascii_db a || one_of (py ".,") a)
                        | [] => false
                        end) logic_py.clutter_keywords = true) as Hall
    by (vm_compute; reflexivity).
  rewrite forallb_forall in Hall. apply list_elem_of_In, Hall in Hk.
  destruct k as [|a rest]; [discriminate |].
  exists a, rest. split; [done |]. by apply negb_true_iff.
Qed.

Lemma test_keywords_subset (k : str) :
  k ∈ test_py.clutter_keywords → k ∈ logic_py.clutter_keywords.
Proof.
  intros Hk.
  change logic_py.clutter_keywords with
    (test_py.clutter_keywords ++ drop 14 logic_py.clutter_keywords).
  apply elem_of_app. by left.
Qed.

Lemma blank_no_keyword (text k : str) :
  Forall (λ c, @isspace ascii_db c || one_of (py ".,") c = true) text →
  k ∈ logic_py.clutter_keywords →
  ¬ ∃ pre post, lower (U := ascii_db) text = pre ++ k ++ post.
Proof.
  intros Hb Hk Hsub. apply contains_spec in Hsub.
  destruct (keywords_start_with_letter k Hk) as (a & rest & -> & Ha).
  apply contains_head, list_elem_of_fmap in Hsub as (c & -> & Hc).
  rewrite Forall_forall in Hb. specialize (Hb c Hc).
  destruct (ascii_blank_char c Hb) as (E & _). rewrite E in Ha. congruence.
Qed.

Lemma blank_digit_count (text : str) :
  Forall (λ c, @isspace ascii_db c || one_of (py ".,") c = true) text →
  digit_count (U := ascii_db) text = 0%Z.
Proof.
  intros Hb. unfold digit_count. rewrite (filter_none (@isdecimal ascii_db)); [done |].
  intros c Hc. rewrite Forall_forall in Hb.
  by destruct (ascii_blank_char c (Hb c Hc)) as (_ & ? & _).
Qed.

(** X4. With the ASCII database, is_item_line of logic.py accepts every
    line of 5 to 50 characters made of white space, periods and commas
    only: a blank or dotted line is classified as an item. *)
Theorem blank_line_accepted (text : str) :
  Forall (λ c, @isspace ascii_db c || one_of (py ".,") c = true) text →
  (5 ≤ len text ≤ 50)%Z →
  logic_py.is_item_line (U := ascii_db) text = true.
Proof.
  intros Hb Hl. apply logic_accepts_iff. split_and!; [| | |lia..].
  - intros k. by apply blank_no_keyword.
  - rewrite blank_digit_count by done. unfold len. lia.
  - intros c Hc. rewrite Forall_forall in Hb. specialize (Hb c Hc).
    unfold logic_py.symbol. apply negb_false_iff.
    rewrite <- orb_assoc, Hb. apply orb_true_r.
Qed.

Lemma blank_line_accepted_witness :
  (5 ≤ len (py " . . ") ≤ 50)%Z ∧ logic_py.is_item_line (py " . . ") = true.
Proof.
  assert (5 ≤ len (py " . . ") ≤ 50)%Z as Hl by (vm_compute; split; discriminate).
  split; [exact Hl |]. apply blank_line_accepted; [|exact Hl].
  repeat constructor.
Defined.

Lemma test_accepts_blank (text : str) :
  Forall (λ c, @isspace ascii_db c = true) text →
  (3 ≤ len text ≤ 50)%Z →
  test_py.is_item_line (U := ascii_db) text = true.
Proof.
  intros Hs Hl.
  assert (Forall (λ c, @isspace ascii_db c || one_of (py ".,") c = true) text)
    as Hb by (eapply Forall_impl; [exact Hs |]; by intros c ->).
  apply test_accepts_iff. split_and!; [| |lia..|].
  - intros k Hk. by apply blank_no_keyword, test_keywords_subset.
  - rewrite blank_digit_count by done. lia.
  - intros c Hc. rewrite Forall_forall in Hs. specialize (Hs c Hc).
    apply not_true_iff_false. intros Hsp%one_of_spec.
    assert (forallb (λ c, negb (@isspace ascii_db c))
              (py "!@#$%^&*()_+=|<>?{}~:;" ++ [34]) = true) as Hall
      by (vm_compute; reflexivity).
    rewrite forallb_forall in Hall. apply list_elem_of_In, Hall in Hsp.
    rewrite Hs in Hsp. discriminate.
Qed.

(** X5. With the ASCII database, is_item_line of test.py accepts every
    line of 3 to 50 white-space characters. *)
Theorem blank_line_accepted_test (text : str) :
  Forall (λ c, @isspace ascii_db c = true) text →
  (3 ≤ len text ≤ 50)%Z →
  test_py.is_item_line (U := ascii_db) text = true.
Proof. apply test_accepts_blank. Qed.

Lemma blank_line_accepted_test_witness :
  (3 ≤ len (py "    ") ≤ 50)%Z ∧ test_py.is_item_line (py "    ") = true.
Proof.
  assert (3 ≤ len (py "    ") ≤ 50)%Z as Hl by (vm_compute; split; discriminate).
  split; [exact Hl |]. apply blank_line_accepted_test; [|exact Hl].
  repeat constructor.
Defined.

(** X6. With the ASCII database, a line that is_item_line of logic.py
    accepts is accepted by that of test.py as soon as it has at most two
    digits and no underscore: the other special characters of test.py are
    symbols for logic.py, its keywords are among those of logic.py, and its
    length bounds are wider. *)
Theorem logic_accepted_test_accepted (text : str) :
  logic_py.is_item_line (U := ascii_db) text = true →
  (digit_count (U := ascii_db) text ≤ 2)%Z →
  underscore ∉ text →
  test_py.is_item_line (U := ascii_db) text = true.
Proof.
  intros (Hk & _ & Hs & Hl)%logic_accepts_iff Hd Hu.
  apply test_accepts_iff. split_and!; [|done|lia..|].
  - intros k Hin. by apply Hk, test_keywords_subset.
  - intros c Hc. apply not_true_iff_false. intros Hsp%one_of_spec.
    assert (forallb (λ c, (c =? underscore) || logic_py.symbol (U := ascii_db) c)
              (py "!@#$%^&*()_+=|<>?{}~:;" ++ [34]) = true) as Hall
      by (vm_compute; reflexivity).
    rewrite forallb_forall in Hall. apply list_elem_of_In, Hall in Hsp.
    apply orb_true_iff in Hsp as [->%N.eqb_eq | Hsym]; [done |].
    rewrite (Hs c Hc) in Hsym. discriminate.
Qed.

Lemma logic_accepted_test_accepted_witness :
  logic_py.is_item_line (py "Rye bread 1kg") = true ∧
  test_py.is_item_line (py "Rye bread 1kg") = true.
Proof.
  split; [reflexivity |].
  apply logic_accepted_test_accepted; [reflexivity | vm_compute; discriminate |].
  intros H. apply list_elem_of_In in H. vm_compute in H. intuition discriminate.
Defined.

(** ** More on the normalizers *)
Section MoreNormalizer.
Context {U : Unicode}.

Lemma elem_of_test_clean items e :
  e ∈ test_py.clean_extracted_items items ↔
  ∃ c, c ∈ items ∧ e = capitalize (canonical_key c).
Proof.
  rewrite test_clean_spec, list_elem_of_fmap.
  setoid_rewrite elem_of_first_seen. setoid_rewrite list_elem_of_fmap. split.
  - intros (k & -> & c & -> & Hc). eauto.
  - intros (c & Hc & ->). eauto.
Qed.

Lemma capitalize_nil (s : str) : capitalize s = [] ↔ s = [].
Proof. by destruct s. Qed.

Lemma lower_nil (s : str) : lower s = [] ↔ s = [].
Proof. by destruct s. Qed.

Lemma length_seen l ks :
  (length (fold_left seen_step l ks) ≤ length ks + length l)%nat.
Proof.
  revert ks. induction l as [|k l IH]; intros ks; simpl; [lia |].
  etrans; [apply IH |]. unfold seen_step. case_decide; [lia |].
  rewrite length_app. simpl. lia.
Qed.

Lemma seen_prefix l ks : ks `prefix_of` fold_left seen_step l ks.
Proof.
  revert ks. induction l as [|k l IH]; intros ks; simpl; [done |].
  etrans; [|apply IH]. unfold seen_step. case_decide; [done |].
  by apply prefix_app_r.
Qed.

Lemma regular_strip items c :
  regular_items items → c ∈ items → Forall regular (strip c).
Proof.
  intros Hr Hc. apply Forall_strip. by apply (proj1 (Forall_forall _ _) Hr).
Qed.

Lemma test_entry_regular items c :
  regular_items items → c ∈ items →
  capitalize (canonical_key c) = capitalize (strip c).
Proof.
  intros Hr Hc. unfold canonical_key.
  apply capitalize_lower. by apply (regular_strip items).
Qed.

Lemma NoDup_test_clean items :
  regular_items items → NoDup (test_py.clean_extracted_items items).
Proof.
  intros Hr. apply (NoDup_fmap_1 canonical_key).
  rewrite test_clean_keys by done. apply NoDup_first_seen.
Qed.
End MoreNormalizer.

(** X7. The list clean_extracted_items of logic.py returns depends on the
    set of its candidates only: neither their order nor their repetitions
    matter. *)
Theorem clean_depends_on_set (U : Unicode) (l l' : list str) :
  (∀ x, x ∈ l ↔ x ∈ l') →
  logic_py.clean_extracted_items l = logic_py.clean_extracted_items l'.
Proof.
  intros H. unfold logic_py.clean_extracted_items, set_of. do 2 f_equal.
  apply set_eq. intros e. rewrite !elem_of_list_to_set, !list_elem_of_fmap.
  setoid_rewrite list_elem_of_filter. by setoid_rewrite H.
Qed.

Lemma clean_depends_on_set_witness :
  logic_py.clean_extracted_items [py "rice"; py "Eggs"; py "rice"]
  = logic_py.clean_extracted_items [py "Eggs"; py "rice"].
Proof.
  apply clean_depends_on_set. intros x.
  rewrite !elem_of_cons, elem_of_nil. tauto.
Defined.

(** X8. clean_extracted_items of logic.py skips blank candidates: its
    result is empty exactly when every candidate is empty once trimmed, and
    it never holds the empty string. *)
Theorem clean_skips_blank (U : Unicode) (items : list str) :
  (logic_py.clean_extracted_items items = [] ↔ ∀ c, c ∈ items → strip c = []) ∧
  [] ∉ logic_py.clean_extracted_items items.
Proof.
  split; [split |].
  - intros E c Hc. destruct (strip c) as [|a t] eqn:Es; [done |].
    assert (capitalize (strip c) ∈ logic_py.clean_extracted_items items) as Hin.
    { apply elem_of_clean. exists c. by rewrite Es. }
    rewrite E in Hin. by apply elem_of_nil in Hin.
  - intros Hall. apply elem_of_nil_inv.
    intros e (c & Hc & Hne & _)%elem_of_clean. by apply Hne, Hall.
  - intros (c & _ & Hne & E)%elem_of_clean.
    symmetry in E. apply (proj1 (capitalize_nil _)) in E. by apply Hne.
Qed.

(** X9. clean_extracted_items of test.py does not skip blank candidates:
    its result holds the empty string exactly when some candidate is empty
    once trimmed. *)
Theorem test_clean_keeps_blank (U : Unicode) (items : list str) :
  [] ∈ test_py.clean_extracted_items items ↔ ∃ c, c ∈ items ∧ strip c = [].
Proof.
  rewrite elem_of_test_clean. unfold canonical_key. split.
  - intros (c & Hc & E). exists c. split; [done |].
    symmetry in E. apply (proj1 (capitalize_nil _)) in E.
    by apply (proj1 (lower_nil _)) in E.
  - intros (c & Hc & E). exists c. by rewrite E.
Qed.

(** X10. Neither normalizer returns more entries than it is given
    candidates. *)
Theorem clean_length (U : Unicode) (items : list str) :
  (length (logic_py.clean_extracted_items items) ≤ length items)%nat ∧
  (length (test_py.clean_extracted_items items) ≤ length items)%nat.
Proof.
  split.
  - trans (length ((λ item, capitalize (strip item))
                      <$> filter (λ item, strip item ≠ []) items)).
    + apply submseteq_length, NoDup_submseteq; [apply NoDup_clean |].
      intros e (c & Hc & Hne & ->)%elem_of_clean.
      apply list_elem_of_fmap. exists c. split; [done |].
      by apply list_elem_of_filter.
    + rewrite length_fmap. apply length_filter.
  - rewrite test_clean_spec, length_fmap. unfold first_seen.
    etrans; [apply length_seen |]. by rewrite length_fmap.
Qed.

(** X11. The loop of test.py only ever appends: the result on a list of
    candidates is a prefix of the result on any longer list that starts
    with it. *)
Theorem test_clean_prefix (U : Unicode) (l1 l2 : list str) :
  test_py.clean_extracted_items l1
    `prefix_of` test_py.clean_extracted_items (l1 ++ l2).
Proof.
  rewrite !test_clean_spec. unfold first_seen.
  rewrite fmap_app, fold_left_app.
  destruct (seen_prefix (canonical_key <$> l2)
              (fold_left seen_step (canonical_key <$> l1) [])) as [k ->].
  rewrite fmap_app. by eexists.
Qed.

(** X12. On candidates of regular characters, every entry either
    normalizer returns is in normal form: trimming it and capitalizing it
    change nothing. *)
Theorem entries_in_normal_form (U : Unicode) (items : list str) (e : str) :
  regular_items items →
  e ∈ logic_py.clean_extracted_items items ∨
  e ∈ test_py.clean_extracted_items items →
  strip e = e ∧ capitalize e = e.
Proof.
  intros Hr He.
  assert (∃ c, c ∈ items ∧ e = capitalize (strip c)) as (c & Hc & ->).
  { destruct He as [(c & ? & _ & ->)%elem_of_clean | (c & ? & ->)%elem_of_test_clean].
    - eauto.
    - exists c. split; [done |]. by apply (test_entry_regular items). }
  pose proof (regular_strip items c Hr Hc) as Hs. split.
  - apply strip_id, trimmed_capitalize; [done | apply strip_trimmed].
  - by apply capitalize_capitalize.
Qed.

Lemma entries_in_normal_form_witness :
  regular_items [py "  oat MILK "] ∧
  strip (py "Oat milk") = py "Oat milk" ∧ capitalize (py "Oat milk") = py "Oat milk".
Proof.
  pose proof (ascii_regular_items [py "  oat MILK "]) as Hr.
  split; [exact Hr |].
  apply (entries_in_normal_form ascii_db [py "  oat MILK "] (py "Oat milk") Hr).
  left. apply list_elem_of_In. vm_compute. tauto.
Defined.

(** X13. On candidates of regular characters the two normalizers keep
    the same entries: the list of logic.py is that of test.py without the
    empty string, sorted. *)
Theorem clean_variants_agree (U : Unicode) (items : list str) :
  regular_items items →
  logic_py.clean_extracted_items items
  = sorted (filter (λ e, e ≠ []) (test_py.clean_extracted_items items)).
Proof.
  intros Hr. apply (Sorted_unique str_le); [apply Sorted_clean | apply Sorted_sorted |].
  rewrite sorted_Permutation.
  apply NoDup_Permutation;
    [apply NoDup_clean | by apply NoDup_filter, NoDup_test_clean |].
  intros e. rewrite list_elem_of_filter, elem_of_clean, elem_of_test_clean. split.
  - intros (c & Hc & Hne & ->). split.
    + by rewrite capitalize_nil.
    + exists c. split; [done |]. symmetry. by apply (test_entry_regular items).
  - intros (Hne & c & Hc & ->). rewrite (test_entry_regular items) in * by done.
    exists c. split_and!; [done | | done]. by rewrite capitalize_nil in Hne.
Qed.

Lemma clean_variants_agree_witness :
  regular_items [py "pear"; py "  "; py "Fig"; py "PEAR"] ∧
  logic_py.clean_extracted_items [py "pear"; py "  "; py "Fig"; py "PEAR"]
  = sorted (filter (λ e, e ≠ [])
      (test_py.clean_extracted_items [py "pear"; py "  "; py "Fig"; py "PEAR"])).
Proof.
  pose proof (ascii_regular_items [py "pear"; py "  "; py "Fig"; py "PEAR"]) as Hr.
  exact (conj Hr (clean_variants_agree ascii_db _ Hr)).
Defined.

(** ** More on the deposit *)
Section MoreDeposit.
Context {U : Unicode}.
Import logic_py.

Lemma len_app {A} (l k : list A) : len (l ++ k) = (len l + len k)%Z.
Proof. unfold len. rewrite length_app. lia. Qed.

Lemma lstrip_suffix (s : str) : ∃ pre, s = pre ++ lstrip s.
Proof.
  induction s as [|c s [pre IH]]; simpl; [by exists [] |].
  destruct (isspace c); [|by exists []].
  exists (c :: pre). simpl. by rewrite <- IH.
Qed.

Lemma strip_infix (s : str) : ∃ pre post, s = pre ++ strip s ++ post.
Proof.
  destruct (lstrip_suffix s) as [pre Hs].
  destruct (lstrip_suffix (reverse (lstrip s))) as [post Hr].
  exists pre, (reverse post). unfold strip, rstrip.
  rewrite <- reverse_app, <- Hr, reverse_involutive. exact Hs.
Qed.

Lemma contains_infix (k s t : str) :
  (∃ pre post, t = pre ++ s ++ post) →
  contains k s = true → contains k t = true.
Proof.
  intros (p1 & q1 & ->) (p2 & q2 & ->)%contains_spec. apply contains_spec.
  exists (p1 ++ p2), (q2 ++ q1). by rewrite <- !app_assoc.
Qed.

Lemma lower_infix (s t : str) :
  (∃ pre post, t = pre ++ s ++ post) →
  ∃ pre post, lower t = pre ++ lower s ++ post.
Proof.
  intros (pre & post & ->). exists (lower pre), (lower post).
  unfold lower. by rewrite !fmap_app.
Qed.

Lemma is_bottle_infix (s t : str) :
  (∃ pre post, t = pre ++ s ++ post) → is_bottle s = true → is_bottle t = true.
Proof.
  intros Hst. unfold is_bottle, any. rewrite !any_spec.
  intros (k & Hk & Hc). exists k. split; [done |].
  by apply (contains_infix k (lower s)); [apply lower_infix |].
Qed.

Lemma is_bottle_capitalize (s : str) :
  Forall regular s → is_bottle (capitalize s) = is_bottle s.
Proof. intros Hs. unfold is_bottle. by rewrite lower_capitalize. Qed.

Lemma is_bottle_lower (s : str) :
  Forall regular s → is_bottle (lower s) = is_bottle s.
Proof. intros Hs. unfold is_bottle. by rewrite lower_lower. Qed.

Lemma count_fmap {A} (p : A → bool) (f : A → A) (l : list A) :
  (∀ x, x ∈ l → p (f x) = p x) →
  len (filter (λ x, p x = true) (f <$> l)) = len (filter (λ x, p x = true) l).
Proof.
  intros Hl. unfold len. f_equal. induction l as [|x l IH]; [done |].
  rewrite fmap_cons, !filter_cons, (Hl x) by by left.
  destruct (decide (p x = true)); simpl; rewrite IH; auto;
    intros y Hy; apply Hl; by right.
Qed.

Lemma quarters_le (a b : Z) :
  (a ≤ b)%Z → (inject_Z a * 0.25 <= inject_Z b * 0.25)%Q.
Proof. intros H. unfold Qle. simpl. lia. Qed.

(** The matching entries of a normalized list come from matching
    candidates, one candidate for each. *)
Lemma matching_entries (items entries : list str) :
  regular_items items → NoDup entries →
  (∀ e, e ∈ entries → ∃ c, c ∈ items ∧ e = capitalize (strip c)) →
  (len (filter (λ e, is_bottle e = true) entries)
   ≤ len (filter (λ c, is_bottle c = true) items))%Z.
Proof.
  intros Hr Hn He. unfold len. apply inj_le.
  rewrite <- (length_fmap (λ c, capitalize (strip c))
                (filter (λ c, is_bottle c = true) items)).
  apply submseteq_length, NoDup_submseteq; [by apply NoDup_filter |].
  intros e [Hb Hin]%list_elem_of_filter.
  destruct (He e Hin) as (c & Hc & ->).
  apply list_elem_of_fmap. exists c. split; [done |].
  apply list_elem_of_filter. split; [|done].
  rewrite is_bottle_capitalize in Hb by by apply (regular_strip items).
  by apply (is_bottle_infix (strip c)); [apply strip_infix |].
Qed.
End MoreDeposit.

(** X14. calculate_pfand is additive: the deposit of two lists put end to
    end is the sum of their deposits, so every occurrence of a repeated
    item counts. *)
Theorem pfand_additive (U : Unicode) (l1 l2 : list str) :
  (logic_py.calculate_pfand (l1 ++ l2)
   == logic_py.calculate_pfand l1 + logic_py.calculate_pfand l2)%Q.
Proof.
  rewrite !calculate_pfand_quarters, filter_app, len_app, inject_Z_plus. ring.
Qed.

(** X15. The deposit is at most 0.25 for each item, and it is 0 exactly
    when no item contains a term of the bottle vocabulary. *)
Theorem pfand_bounds (U : Unicode) (items : list str) :
  (logic_py.calculate_pfand items <= inject_Z (len items) * 0.25)%Q ∧
  ((logic_py.calculate_pfand items == 0)%Q ↔
   ∀ item, item ∈ items → logic_py.is_bottle item = false).
Proof.
  rewrite !calculate_pfand_quarters. split.
  - apply quarters_le. unfold len. apply inj_le, length_filter.
  - unfold Qeq, len. simpl. rewrite Z.mul_1_r. split.
    + intros E item Hin. apply not_true_iff_false. intros Hb.
      assert (item ∈ filter (λ item, logic_py.is_bottle item = true) items) as Hf
        by by apply list_elem_of_filter.
      destruct (filter _ items); [by apply elem_of_nil in Hf | simpl in E; lia].
    + intros Hall. rewrite filter_none; [done |]. exact Hall.
Qed.

(** X16. The last two terms of the bottle vocabulary, "glass bottle" and
    "plastic bottle", never decide, as they contain "bottle": an item
    matches exactly when it matches one of the first ten. *)
Theorem bottle_vocabulary (U : Unicode) (item : str) :
  logic_py.is_bottle item
  = any (λ keyword, contains keyword (lower item))
      [ py "coca cola"; py "pepsi"; py "dasani"; py "bottle"; py "sprite";
        py "fanta"; py "evian"; py "volvic"; py "nestle"; py "mineral water" ].
Proof.
  unfold logic_py.is_bottle, any.
  change logic_py.bottle_keywords with
    ([ py "coca cola"; py "pepsi"; py "dasani"; py "bottle"; py "sprite";
       py "fanta"; py "evian"; py "volvic"; py "nestle"; py "mineral water" ]
     ++ [py "glass bottle"; py "plastic bottle"]).
  rewrite existsb_app. cbn [existsb].
  rewrite (orb_false_r (contains (py "plastic bottle") (lower item))).
  destruct (contains (py "glass bottle") (lower item)
            || contains (py "plastic bottle") (lower item)) eqn:E;
    [|by rewrite orb_false_r].
  rewrite orb_true_r. symmetry.
  assert (contains (py "bottle") (lower item) = true) as Hb.
  { apply orb_true_iff in E as [E | E].
    - apply (contains_weaken (py "glass bottle")); [|done].
      by exists (py "glass "), [].
    - apply (contains_weaken (py "plastic bottle")); [|done].
      by exists (py "plastic "), []. }
  rewrite Hb. cbn [orb]. by rewrite !orb_true_r.
Qed.

(** X17. On items of regular characters the deposit does not depend on
    the case of the items: capitalizing them or lower-casing them leaves it
    unchanged. *)
Theorem pfand_case_insensitive (U : Unicode) (items : list str) :
  regular_items items →
  logic_py.calculate_pfand (capitalize <$> items) = logic_py.calculate_pfand items ∧
  logic_py.calculate_pfand (lower <$> items) = logic_py.calculate_pfand items.
Proof.
  intros Hr. unfold logic_py.calculate_pfand. rewrite !sum_ones_count.
  unfold regular_items in Hr. rewrite Forall_forall in Hr.
  rewrite !count_fmap; [done | |].
  - intros x Hx. by apply is_bottle_lower, Hr.
  - intros x Hx. by apply is_bottle_capitalize, Hr.
Qed.

Lemma pfand_case_insensitive_witness :
  regular_items [py "PEPSI max"; py "rye bread"] ∧
  logic_py.calculate_pfand (capitalize <$> [py "PEPSI max"; py "rye bread"])
  = logic_py.calculate_pfand [py "PEPSI max"; py "rye bread"].
Proof.
  pose proof (ascii_regular_items [py "PEPSI max"; py "rye bread"]) as Hr.
  exact (conj Hr (proj1 (pfand_case_insensitive ascii_db _ Hr))).
Defined.

(** X18. On candidates of regular characters, normalizing first never
    raises the deposit: the deposit of the normalized list, in logic.py and
    in test.py, is at most that of the candidates. *)
Theorem pfand_after_clean (U : Unicode) (items : list str) :
  regular_items items →
  (logic_py.calculate_pfand (logic_py.clean_extracted_items items)
   <= logic_py.calculate_pfand items)%Q ∧
  (logic_py.calculate_pfand (test_py.clean_extracted_items items)
   <= logic_py.calculate_pfand items)%Q.
Proof.
  intros Hr. rewrite !calculate_pfand_quarters.
  split; apply quarters_le, matching_entries; try done.
  - apply NoDup_clean.
  - intros e (c & Hc & _ & ->)%elem_of_clean. eauto.
  - by apply NoDup_test_clean.
  - intros e (c & Hc & ->)%elem_of_test_clean. exists c.
    split; [done |]. by apply (test_entry_regular items).
Qed.

Lemma pfand_after_clean_witness :
  regular_items [py "Glass bottle"; py "glass bottle "; py "GLASS BOTTLE"] ∧
  (logic_py.calculate_pfand
     (logic_py.clean_extracted_items
        [py "Glass bottle"; py "glass bottle "; py "GLASS BOTTLE"])
   <= logic_py.calculate_pfand
        [py "Glass bottle"; py "glass bottle "; py "GLASS BOTTLE"])%Q.
Proof.
  pose proof (ascii_regular_items
                [py "Glass bottle"; py "glass bottle "; py "GLASS BOTTLE"]) as Hr.
  exact (conj Hr (proj1 (pfand_after_clean ascii_db _ Hr))).
Defined.

(** ** The receipt pipelines *)
Section Pipelines.
Context {U : Unicode}.

Lemma clean_ext (l l' : list str) :
  (∀ x, x ∈ l ↔ x ∈ l') →
  logic_py.clean_extracted_items l = logic_py.clean_extracted_items l'.
Proof.
  intros H. unfold logic_py.clean_extracted_items, set_of. do 2 f_equal.
  apply set_eq. intros e. rewrite !elem_of_list_to_set, !list_elem_of_fmap.
  setoid_rewrite list_elem_of_filter. by setoid_rewrite H.
Qed.

(** Cleaning trimmed candidates is cleaning the candidates. *)
Lemma clean_strip (l : list str) :
  logic_py.clean_extracted_items (strip <$> l) = logic_py.clean_extracted_items l.
Proof.
  unfold logic_py.clean_extracted_items. do 3 f_equal.
  induction l as [|x l IH]; [done |].
  rewrite fmap_cons, !filter_cons, strip_strip.
  destruct (decide (strip x ≠ [])); [|done].
  by rewrite !fmap_cons, strip_strip, IH.
Qed.

Lemma elem_of_process_receipt (lines : list str) (e : str) :
  e ∈ logic_py.process_receipt lines ↔
  ∃ text, text ∈ lines ∧ logic_py.is_item_line text = true ∧
          strip text ≠ [] ∧ e = capitalize (strip text).
Proof.
  unfold logic_py.process_receipt. rewrite clean_strip, elem_of_clean. split.
  - intros (c & [Hc Hin]%list_elem_of_filter & Hne & ->). by exists c.
  - intros (c & Hin & Hc & Hne & ->). exists c. split; [|done].
    by apply list_elem_of_filter.
Qed.



(** The appended item of one line, in either file. *)
Lemma logic_raw_items (blocks : list ocr.block) :
  (block ← blocks; line ← ocr.lines block;
   let text := line_text line in
   if logic_py.is_item_line text then [strip text] else [])
  = strip <$> filter (λ text, logic_py.is_item_line text = true)
                (line_texts blocks).
Proof.
  unfold line_texts.
  assert (∀ ls : list ocr.line,
            (line ← ls; let text := line_text line in
                        if logic_py.is_item_line text then [strip text] else [])
            = strip <$> filter (λ text, logic_py.is_item_line text = true)
                          (line_text <$> ls)) as Hls.
  { induction ls as [|x ls IH]; [done |].
    rewrite bind_cons, IH, fmap_cons, filter_cons. cbn zeta.
    destruct (logic_py.is_item_line (line_text x)) eqn:E.
    - by rewrite decide_True.
    - by rewrite decide_False by congruence. }
  induction blocks as [|b blocks IH]; [done |].
  rewrite !bind_cons, IH, Hls, fmap_app, filter_app, fmap_app. done.
Qed.

Lemma logic_blocks_lines (blocks : list ocr.block) :
  logic_py.process_receipt_blocks blocks
  = logic_py.process_receipt (line_texts blocks).
Proof.
  unfold logic_py.process_receipt_blocks, logic_py.process_receipt.
  cbn zeta. by rewrite logic_raw_items.
Qed.
End Pipelines.

(** X19. The trimming of the accepted lines in the loop of process_receipt
    (logic.py) changes nothing, as clean_extracted_items trims again: the
    result is clean_extracted_items of the accepted lines. *)
Theorem process_receipt_strip_redundant (U : Unicode) (lines : list str) :
  logic_py.process_receipt lines
  = logic_py.clean_extracted_items
      (filter (λ text, logic_py.is_item_line text = true) lines).
Proof. unfold logic_py.process_receipt. apply clean_strip. Qed.



(** X21. On lines of regular characters, no item process_receipt of
    logic.py returns contains a clutter keyword, in whatever case. *)
Theorem extracted_item_no_keyword (U : Unicode) (lines : list str) (e keyword : str) :
  regular_items lines →
  e ∈ logic_py.process_receipt lines →
  keyword ∈ logic_py.clutter_keywords →
  contains keyword (lower e) = false.
Proof.
  intros Hr (text & Hin & Hacc & _ & ->)%elem_of_process_receipt Hk.
  apply not_true_iff_false. intros Hc.
  rewrite lower_capitalize in Hc by by apply (regular_strip lines).
  rewrite (is_item_line_keyword text keyword Hk) in Hacc; [discriminate |].
  by apply (contains_infix keyword (lower (strip text)));
    [apply lower_infix, strip_infix |].
Qed.

Lemma extracted_item_no_keyword_witness :
  regular_items [py "Cashew nuts"; py "  Bread  "] ∧
  py "Bread" ∈ logic_py.process_receipt [py "Cashew nuts"; py "  Bread  "] ∧
  contains (py "cash") (lower (py "Bread")) = false.
Proof.
  pose proof (ascii_regular_items [py "Cashew nuts"; py "  Bread  "]) as Hr.
  assert (py "Bread" ∈ logic_py.process_receipt [py "Cashew nuts"; py "  Bread  "])
    as Hin by (apply list_elem_of_In; vm_compute; tauto).
  split; [exact Hr |]. split; [exact Hin |].
  apply (extracted_item_no_keyword ascii_db _ _ _ Hr Hin).
  apply list_elem_of_In. vm_compute. tauto.
Defined.

(** X22. What process_receipt of logic.py returns depends on the set of
    line texts of the export only: how the lines are grouped in blocks, in
    which order they come and how often a text occurs do not matter. *)
Theorem process_receipt_blocks_set (U : Unicode) (blocks blocks' : list ocr.block) :
  (∀ text, text ∈ line_texts blocks ↔ text ∈ line_texts blocks') →
  logic_py.process_receipt_blocks blocks = logic_py.process_receipt_blocks blocks'.
Proof.
  intros H. rewrite !logic_blocks_lines. unfold logic_py.process_receipt.
  rewrite !clean_strip. apply clean_ext. intros text.
  rewrite !list_elem_of_filter. by rewrite H.
Qed.

Lemma process_receipt_blocks_set_witness :
  logic_py.process_receipt_blocks
    (export_of [[[py "Rye"; py "bread"]; [py "Oat"; py "milk"]]; [[py "Rye"; py "bread"]]])
  = logic_py.process_receipt_blocks
    (export_of [[[py "Oat"; py "milk"]]; [[py "Rye"; py "bread"]]]).
Proof.
  apply process_receipt_blocks_set. intros text.
  change (line_texts (export_of
            [[[py "Rye"; py "bread"]; [py "Oat"; py "milk"]]; [[py "Rye"; py "bread"]]]))
    with [py "Rye bread"; py "Oat milk"; py "Rye bread"].
  change (line_texts (export_of [[[py "Oat"; py "milk"]]; [[py "Rye"; py "bread"]]]))
    with [py "Oat milk"; py "Rye bread"].
  rewrite !elem_of_cons, elem_of_nil. tauto.
Defined.

(** ** The positional filter of test.py *)
Section Positions.
Context {U : Unicode}.

(** What the inner loop appends for a line it does not skip. *)
Lemma test_kept_items (ls : list ocr.line) :
  (line ← ls; if test_py.is_item_line (line_text line)
              then [strip (line_text line)] else [])
  = strip <$> filter (λ text, test_py.is_item_line text = true) (line_text <$> ls).
Proof.
  induction ls as [|x ls IH]; [done |].
  rewrite bind_cons, IH, fmap_cons, filter_cons.
  destruct (test_py.is_item_line (line_text x)) eqn:E.
  - by rewrite decide_True.
  - by rewrite decide_False by congruence.
Qed.

(** The loop from position [k] on, over the lines that are left. *)
Lemma loop_slice (n k : nat) (ls : list ocr.line) :
  mjoin (imap (λ idx line,
                 test_py.loop_body (Z.of_nat n) (Z.of_nat (k + idx)) line) ls)
  = (line ← drop (3 - k) (take (n - 2 - k) ls);
     if test_py.is_item_line (line_text line)
     then [strip (line_text line)] else []).
Proof.
  revert k. induction ls as [|x ls IH]; intros k.
  - by rewrite take_nil, drop_nil.
  - rewrite imap_cons.
    rewrite (imap_ext _ (λ idx line,
               test_py.loop_body (Z.of_nat n) (Z.of_nat (S k + idx)) line))
      by (intros i y _; simpl; do 2 f_equal; lia).
    cbn [mjoin list_join]. rewrite IH. rewrite Nat.add_0_r.
    unfold test_py.loop_body at 1. cbn zeta.
    destruct (n - 2 - k)%nat as [|m] eqn:En.
    + replace (n - 2 - S k)%nat with 0%nat by lia.
      replace ((Z.of_nat k <? 3)%Z || (Z.of_nat k >? Z.of_nat n - 3)%Z) with true.
      * by rewrite !take_0, !drop_nil.
      * symmetry. apply orb_true_iff. rewrite Z.ltb_lt, Z.gtb_gt. lia.
    + replace (n - 2 - S k)%nat with m by lia. rewrite firstn_cons.
      destruct (3 - k)%nat as [|j] eqn:Ek.
      * replace (3 - S k)%nat with 0%nat by lia.
        replace ((Z.of_nat k <? 3)%Z || (Z.of_nat k >? Z.of_nat n - 3)%Z) with false.
        -- by rewrite !drop_0, bind_cons.
        -- symmetry. apply orb_false_iff. rewrite Z.ltb_ge, Z.gtb_ltb, Z.ltb_ge. lia.
      * replace (3 - S k)%nat with j by lia.
        replace ((Z.of_nat k <? 3)%Z || (Z.of_nat k >? Z.of_nat n - 3)%Z) with true.
        -- done.
        -- symmetry. apply orb_true_iff. rewrite Z.ltb_lt, Z.gtb_gt. lia.
Qed.

Lemma block_items_slice (block : ocr.block) :
  test_py.block_items block
  = strip <$> filter (λ text, test_py.is_item_line text = true)
      (line_text <$> drop 3 (take (length (ocr.lines block) - 2) (ocr.lines block))).
Proof.
  unfold test_py.block_items, len.
  etrans; [apply (loop_slice (length (ocr.lines block)) 0) |].
  rewrite !Nat.sub_0_r. apply test_kept_items.
Qed.

Lemma block_items_short (block : ocr.block) :
  (length (ocr.lines block) < 6)%nat → test_py.block_items block = [].
Proof.
  intros Hn. rewrite block_items_slice, drop_ge; [done |].
  rewrite length_take. lia.
Qed.

Lemma elem_of_block_items (block : ocr.block) (i : nat) (line : ocr.line) :
  ocr.lines block !! i = Some line →
  (3 ≤ i)%nat → (i + 3 ≤ length (ocr.lines block))%nat →
  test_py.is_item_line (line_text line) = true →
  strip (line_text line) ∈ test_py.block_items block.
Proof.
  intros Hi H3 Hn Hacc. rewrite block_items_slice.
  apply list_elem_of_fmap_2, list_elem_of_filter. split; [done |].
  apply list_elem_of_fmap_2, (list_elem_of_lookup_2 _ (i - 3)).
  rewrite lookup_drop, lookup_take_lt by lia.
  by replace (3 + (i - 3))%nat with i by lia.
Qed.

Lemma lstrip_blank (s : str) :
  Forall (λ c, isspace c = true) s → lstrip s = [].
Proof. induction 1 as [|c s Hc _ IH]; simpl; [done |]. by rewrite Hc. Qed.

Lemma strip_blank (s : str) :
  Forall (λ c, isspace c = true) s → strip s = [].
Proof. intros Hs. unfold strip. by rewrite lstrip_blank. Qed.
End Positions.

(** X23. Of a block of n lines the loop of process_receipt in test.py
    considers the lines at positions 3 to n - 3 only, in their order: the
    first three and the last two are skipped, whatever they say. *)
Theorem positional_filter (U : Unicode) (block : ocr.block) :
  test_py.block_items block
  = strip <$> filter (λ text, test_py.is_item_line text = true)
      (line_text <$> drop 3 (take (length (ocr.lines block) - 2) (ocr.lines block))).
Proof. apply block_items_slice. Qed.

(** X24. process_receipt of test.py returns nothing for an export all of
    whose blocks have fewer than six lines. *)
Theorem short_blocks_give_nothing (U : Unicode) (blocks : list ocr.block) :
  Forall (λ block, (length (ocr.lines block) < 6)%nat) blocks →
  test_py.process_receipt blocks = [].
Proof.
  intros Hs. unfold test_py.process_receipt. cbn zeta.
  replace (blocks ≫= test_py.block_items) with ([] : list str); [done |].
  symmetry. induction Hs as [|b blocks Hb _ IH]; [done |].
  by rewrite bind_cons, block_items_short, IH.
Qed.

Lemma short_blocks_give_nothing_witness :
  test_py.process_receipt
    (export_of [[[py "Rye"; py "bread"]; [py "Oat"; py "milk"]; [py "Eggs"];
                 [py "Butter"]; [py "Honey"]]]) = [].
Proof.
  apply short_blocks_give_nothing. repeat constructor.
Defined.

(** X25. With the ASCII database, process_receipt of test.py returns the
    empty string as an item as soon as a line it considers (position 3 to
    n - 3 of its block) is made of 3 to 50 white-space characters. *)
Theorem blank_line_gives_empty_item
    (blocks : list ocr.block) (block : ocr.block) (i : nat) (line : ocr.line) :
  block ∈ blocks → ocr.lines block !! i = Some line →
  (3 ≤ i)%nat → (i + 3 ≤ length (ocr.lines block))%nat →
  Forall (λ c, @isspace ascii_db c = true) (line_text line) →
  (3 ≤ len (line_text line) ≤ 50)%Z →
  [] ∈ test_py.process_receipt (U := ascii_db) blocks.
Proof.
  intros Hb Hi H3 Hn Hs Hl. unfold test_py.process_receipt. cbn zeta.
  apply elem_of_test_clean. exists []. split; [|done].
  apply list_elem_of_bind. exists block. split; [|done].
  rewrite <- (strip_blank (line_text line) Hs).
  apply (elem_of_block_items block i line); try done.
  by apply test_accepts_blank.
Qed.

Lemma blank_line_gives_empty_item_witness :
  [] ∈ test_py.process_receipt
         (export_of [[[py "SHOP"]; [py "Main"; py "St"]; [py "Tel"]; [py "   "];
                      [py "Sum"]; [py "Bye"]]]).
Proof.
  apply (blank_line_gives_empty_item _
           (ocr.Build_block ((λ l, ocr.Build_line (ocr.Build_word <$> l))
              <$> [[py "SHOP"]; [py "Main"; py "St"]; [py "Tel"]; [py "   "];
                   [py "Sum"]; [py "Bye"]]))
           3 (ocr.Build_line [ocr.Build_word (py "   ")])).
  - by left.
  - reflexivity.
  - lia.
  - simpl. lia.
  - repeat constructor.
  - vm_compute. split; discriminate.
Defined.
